(** * FlashTest learning engine: mastery, priority, spaced repetition

    A shallow embedding of the scheduling code of the FlashTest studio
    application:

    - [LearningService] (learning.service.ts): [getNextQuestions],
      [updateMasteryLevel], [calculateSpacedRepetitionInterval],
      [getQuestionsForReview], [calculateQuestionPriority],
      [calculateNewMasteryLevel];
    - [AnalyticsService] (analytics.service.ts): [updateUserProgress],
      [calculateMasteryLevel].

    Modelling conventions.

    - A TypeScript [number] is an exact rational ([Q]).  Every arithmetic
      operator of the source is the operator of the same name on [Q];
      rounding of binary64, NaN and the infinities are not represented.
      Results are therefore compared with [==] ([Qeq]).
    - Prisma [Int] columns are [Z]; [DateTime] values are milliseconds since
      the epoch, also [Z]; [String] columns are [string].
    - The Prisma client is a record of tables ([Db]); a table is the list of
      its rows in storage order.  Service methods that write return the new
      database together with the row Prisma returns.
    - [Date.now()] and the [cuid()] default of a created row are inputs of
      the operation that reads them; one operation reads one clock value.
    - The store is always reachable: the [catch] blocks, which only wrap a
      Prisma failure into an [Error], have no counterpart. *)

From Stdlib Require Import ZArith QArith Qround Qabs Qminmax Lqa Lia.
From Stdlib Require Import List String Bool Permutation Sorted.
Import ListNotations.

Open Scope Q_scope.

(** ** JavaScript primitives *)

Definition Qlt_bool (x y : Q) : bool := negb (Qle_bool y x).

(** [Math.max(a, b)] and [Math.min(a, b)] *)
Definition Math_max (a b : Q) : Q := if Qlt_bool a b then b else a.
Definition Math_min (a b : Q) : Q := if Qlt_bool b a then b else a.

(** [Math.floor(x)] and [Math.round(x)] (halves round towards +infinity) *)
Definition Math_floor (x : Q) : Q := inject_Z (Qfloor x).
Definition Math_round (x : Q) : Q := inject_Z (Qfloor (x + 0.5)).

(** [x || 0] on numbers: [0] is the only falsy value of the model *)
Definition or_zero (x : option Q) : Q :=
  match x with
  | Some v => if Qeq_bool v 0 then 0 else v
  | None => 0
  end.

(** [arr.slice(0, end)] for an integer [end] *)
Definition slice0 {A : Type} (end_ : Z) (arr : list A) : list A :=
  let len := Z.of_nat (List.length arr) in
  let final := if (end_ <? 0)%Z then Z.max (len + end_) 0 else Z.min end_ len in
  firstn (Z.to_nat final) arr.

(** [arr.sort(compareFn)]: the sort of ECMAScript is stable; an element is
    moved behind another one only when [compareFn] is positive on them. *)
Section ArraySort.
Context {A : Type} (compareFn : A -> A -> Q).

Fixpoint sort_insert (x : A) (sorted : list A) : list A :=
  match sorted with
  | [] => [x]
  | y :: rest =>
      if Qlt_bool 0 (compareFn x y) then y :: sort_insert x rest
      else x :: y :: rest
  end.

Fixpoint Array_sort (arr : list A) : list A :=
  match arr with
  | [] => []
  | x :: rest => sort_insert x (Array_sort rest)
  end.
End ArraySort.

(** ** Prisma models (schema.prisma) *)

Record Question := mkQuestion {
  q_id : string;
  q_topic : string;
  q_question : string;
  q_answer : string;
  q_difficulty : string
}.

Record QuizSession := mkQuizSession {
  s_id : string;
  s_userId : option string
}.

Record QuestionAttempt := mkQuestionAttempt {
  a_id : string;
  a_sessionId : string;
  a_questionId : string;
  a_isCorrect : bool;
  a_attemptedAt : Z
}.

Record UserProgress := mkUserProgress {
  p_id : string;
  userId : string;
  topic : string;
  masteryLevel : Q;
  lastPracticed : Z;
  totalAttempts : Z;
  correctAttempts : Z
}.

Record Db := mkDb {
  questions : list Question;
  quizSessions : list QuizSession;
  questionAttempts : list QuestionAttempt;
  userProgress : list UserProgress
}.

(** [prisma.userProgress.findMany({ where: { userId } })] *)
Definition userProgress_findMany (db : Db) (uid : string) : list UserProgress :=
  filter (fun p => String.eqb (userId p) uid) (userProgress db).

(** the compound key [userId_topic] *)
Definition has_key (uid tp : string) (p : UserProgress) : bool :=
  String.eqb (userId p) uid && String.eqb (topic p) tp.

(** [prisma.userProgress.findUnique({ where: { userId_topic } })] *)
Definition userProgress_findUnique (db : Db) (uid tp : string) : option UserProgress :=
  find (has_key uid tp) (userProgress db).

(** [prisma.userProgress.update({ where: { userId_topic }, data })]: [data]
    is the function that overwrites the listed columns. *)
Definition userProgress_update (db : Db) (uid tp : string)
    (data : UserProgress -> UserProgress) : Db :=
  mkDb (questions db) (quizSessions db) (questionAttempts db)
       (map (fun p => if has_key uid tp p then data p else p) (userProgress db)).

(** [prisma.userProgress.create({ data })] *)
Definition userProgress_create (db : Db) (row : UserProgress) : Db :=
  mkDb (questions db) (quizSessions db) (questionAttempts db)
       (userProgress db ++ [row]).

(** [prisma.question.findMany({ where: { topic } })] *)
Definition question_findMany_topic (db : Db) (tp : string) : list Question :=
  filter (fun q => String.eqb (q_topic q) tp) (questions db).

(** [prisma.question.findMany({ where: { id: { in: ids } } })] *)
Definition question_findMany_in (db : Db) (ids : list string) : list Question :=
  filter (fun q => existsb (String.eqb (q_id q)) ids) (questions db).

(** [prisma.questionAttempt.findMany({ where: { session: { userId } },
      orderBy: { attemptedAt: 'desc' }, take })] *)
Definition attempt_of_user (db : Db) (uid : string) (a : QuestionAttempt) : bool :=
  existsb (fun s => String.eqb (s_id s) (a_sessionId a) &&
                    match s_userId s with
                    | Some u => String.eqb u uid
                    | None => false
                    end)
          (quizSessions db).

Definition questionAttempt_findRecent (db : Db) (uid : string) (take : nat)
    : list QuestionAttempt :=
  firstn take
    (Array_sort (fun a b => inject_Z (a_attemptedAt b) - inject_Z (a_attemptedAt a))
       (filter (attempt_of_user db uid) (questionAttempts db))).

(** ** AnalyticsService *)

(** [calculateMasteryLevel(correctAttempts, totalAttempts)] *)
Definition calculateMasteryLevel (correctAttempts totalAttempts : Z) : Q :=
  if (totalAttempts =? 0)%Z then 0
  else
    let accuracy := inject_Z correctAttempts / inject_Z totalAttempts in
    let masteryLevel := accuracy * 100 in
    let masteryLevel :=
      if (5 <=? totalAttempts)%Z && Qle_bool 0.8 accuracy
      then masteryLevel + Math_min 10 (inject_Z totalAttempts * 0.5)
      else masteryLevel in
    Math_min 100 (Math_max 0 masteryLevel).

(** [updateUserProgress(userId, topic, isCorrect)] *)
Definition updateUserProgress (db : Db) (now : Z) (cuid : string)
    (uid tp : string) (isCorrect : bool) : Db * UserProgress :=
  match userProgress_findUnique db uid tp with
  | Some existingProgress =>
      let newTotalAttempts := (totalAttempts existingProgress + 1)%Z in
      let newCorrectAttempts :=
        (correctAttempts existingProgress + (if isCorrect then 1 else 0))%Z in
      let newMasteryLevel := calculateMasteryLevel newCorrectAttempts newTotalAttempts in
      let data p :=
        mkUserProgress (p_id p) (userId p) (topic p)
          newMasteryLevel now newTotalAttempts newCorrectAttempts in
      (userProgress_update db uid tp data, data existingProgress)
  | None =>
      let row :=
        mkUserProgress cuid uid tp
          (calculateMasteryLevel (if isCorrect then 1 else 0) 1)
          now 1 (if isCorrect then 1 else 0) in
      (userProgress_create db row, row)
  end.

(** ** LearningService *)

Record SpacedRepetition := mkSpacedRepetition {
  newInterval : Q;
  newEaseFactor : Q;
  newRepetitions : Q
}.

(** [calculateSpacedRepetitionInterval(currentInterval, repetitions,
      easeFactor, performance)] *)
Definition calculateSpacedRepetitionInterval
    (currentInterval repetitions easeFactor performance : Q) : SpacedRepetition :=
  let '(newInterval, newRepetitions) :=
    if Qle_bool 0.6 performance then
      ((if Qeq_bool repetitions 0 then 1
        else if Qeq_bool repetitions 1 then 6
        else Math_round (currentInterval * easeFactor)),
       repetitions + 1)
    else (1, 0) in
  let newEaseFactor :=
    Math_max 1.3
      (easeFactor +
       (0.1 - (5 - performance * 5) * (0.08 + (5 - performance * 5) * 0.02))) in
  mkSpacedRepetition newInterval newEaseFactor newRepetitions.

(** [Math.floor((Date.now() - progress.lastPracticed.getTime())
      / (1000 * 60 * 60 * 24))] *)
Definition daysSinceLastPractice (now : Z) (progress : UserProgress) : Q :=
  Math_floor
    ((inject_Z now - inject_Z (lastPracticed progress)) / (1000 * 60 * 60 * 24)).

(** [calculateQuestionPriority(question, progress, wasRecentlyAttempted)] *)
Definition calculateQuestionPriority (now : Z) (question : Question)
    (progress : option UserProgress) (wasRecentlyAttempted : bool) : Q :=
  let priority := 50 in
  (* Factor 1: mastery level *)
  let priority :=
    match progress with
    | Some p => priority + (100 - masteryLevel p) * 0.5
    | None => priority + 25
    end in
  (* Factor 2: time since last practice *)
  let priority :=
    match progress with
    | Some p =>
        priority + Math_min (daysSinceLastPractice now p * 2) 20
    | None => priority
    end in
  (* Factor 3: difficulty level *)
  let priority :=
    if String.eqb (q_difficulty question) "easy" then priority + 5
    else if String.eqb (q_difficulty question) "medium" then priority + 10
    else if String.eqb (q_difficulty question) "hard" then priority + 15
    else priority in
  (* Factor 4: recent attempts *)
  let priority := if wasRecentlyAttempted then priority - 30 else priority in
  (* Factor 5: success rate *)
  let priority :=
    match progress with
    | Some p =>
        if (0 <? totalAttempts p)%Z then
          let successRate :=
            inject_Z (correctAttempts p) / inject_Z (totalAttempts p) in
          if Qlt_bool successRate 0.5 then priority + 20
          else if Qlt_bool 0.8 successRate then priority - 10
          else priority
        else priority
    | None => priority
    end in
  Math_max 0 (Math_min 100 priority).

(** [calculateNewMasteryLevel(currentMastery, performance, totalAttempts)] *)
Definition calculateNewMasteryLevel (currentMastery performance totalAttempts : Q) : Q :=
  let normalizedPerformance := Math_max 0 (Math_min 1 performance) in
  let learningRate := 0.1 * (1 - currentMastery / 100) in
  let masteryChange :=
    if Qlt_bool 0.5 normalizedPerformance
    then learningRate * (normalizedPerformance - 0.5) * 100
    else - learningRate * (0.5 - normalizedPerformance) * 50 in
  let stabilityFactor := Math_min 1 (totalAttempts / 10) in
  let masteryChange := masteryChange * (1 + stabilityFactor) in
  let newMastery := currentMastery + masteryChange in
  Math_max 0 (Math_min 100 newMastery).

(** [updateMasteryLevel(userId, topic, performance)] *)
Definition updateMasteryLevel (db : Db) (now : Z) (cuid : string)
    (uid tp : string) (performance : Q) : Db * UserProgress :=
  let existingProgress := userProgress_findUnique db uid tp in
  let newMasteryLevel :=
    calculateNewMasteryLevel
      (or_zero (option_map masteryLevel existingProgress))
      performance
      (or_zero (option_map (fun p => inject_Z (totalAttempts p)) existingProgress)) in
  match existingProgress with
  | Some existing =>
      let data p :=
        mkUserProgress (p_id p) (userId p) (topic p)
          newMasteryLevel now (totalAttempts p) (correctAttempts p) in
      (userProgress_update db uid tp data, data existing)
  | None =>
      let row :=
        mkUserProgress cuid uid tp newMasteryLevel now
          1 (if Qlt_bool 0.5 performance then 1 else 0) in
      (userProgress_create db row, row)
  end.

(** the objects built by the [map] of [getNextQuestions] *)
Record QuestionPriority := mkQuestionPriority {
  qp_question : Question;
  qp_priority : Q;
  qp_masteryLevel : Q
}.

(** the comparison function handed to [questionPriorities.sort] *)
Definition comparePriority (a b : QuestionPriority) : Q :=
  if negb (Qeq_bool (qp_priority a) (qp_priority b))
  then qp_priority b - qp_priority a
  else qp_masteryLevel a - qp_masteryLevel b.

(** [userProgress.find(p => p.topic === question.topic)] *)
Definition progress_of_topic (rows : list UserProgress) (tp : string)
    : option UserProgress :=
  find (fun p => String.eqb (topic p) tp) rows.

(** the array [questionPriorities] of [getNextQuestions], before it is sorted *)
Definition questionPriorities (db : Db) (now : Z) (uid : string)
    : list QuestionPriority :=
  let userProgress := userProgress_findMany db uid in
  let recentAttempts := questionAttempt_findRecent db uid 20 in
  let recentQuestionIds := map a_questionId recentAttempts in
  let allQuestions := questions db in
  map (fun question =>
         let progress := progress_of_topic userProgress (q_topic question) in
         let priority :=
           calculateQuestionPriority now question progress
             (existsb (String.eqb (q_id question)) recentQuestionIds) in
         mkQuestionPriority question priority
           (or_zero (option_map masteryLevel progress)))
      allQuestions.

(** [getNextQuestions(userId, count)] *)
Definition getNextQuestions (db : Db) (now : Z) (uid : string) (count : Z)
    : list Question :=
  map qp_question
    (slice0 count (Array_sort comparePriority (questionPriorities db now uid))).

(** the body of the [for] loop of [getQuestionsForReview]: the ids pushed
    for one progress row *)
Definition reviewInterval (progress : UserProgress) : Q :=
  if Qle_bool 80 (masteryLevel progress) then 7
  else if Qle_bool 60 (masteryLevel progress) then 3
  else 1.

Definition pushDue (db : Db) (now : Z) (questionsForReview : list string)
    (progress : UserProgress) : list string :=
  if Qle_bool (reviewInterval progress) (daysSinceLastPractice now progress)
  then questionsForReview ++ map q_id (question_findMany_topic db (topic progress))
  else questionsForReview.

(** [getQuestionsForReview(userId)] *)
Definition getQuestionsForReview (db : Db) (now : Z) (uid : string) : list Question :=
  let userProgress := userProgress_findMany db uid in
  let questionsForReview := fold_left (pushDue db now) userProgress [] in
  question_findMany_in db questionsForReview.

(** ** The statements of the specification *)

Definition clamp (lo hi x : Q) : Q := Qmax lo (Qmin hi x).

Definition in_range (lo hi x : Q) : Prop := lo <= x /\ x <= hi.

(** Section 4.1, continuous rule: the change of mastery before it is added *)
Definition spec_masteryChange (currentMastery performance totalAttempts : Q) : Q :=
  let performance := clamp 0 1 performance in
  let learningRate := 0.1 * (1 - currentMastery / 100) in
  let raw :=
    if Qlt_le_dec 0.5 performance
    then learningRate * (performance - 0.5) * 100
    else - (learningRate * (0.5 - performance) * 50) in
  raw * (1 + Qmin 1 (totalAttempts / 10)).

(** Section 4.1, accuracy rule *)
Definition spec_accuracyMastery (correct total : Z) : Q :=
  let accuracy := inject_Z correct / inject_Z total in
  let bonus :=
    if Z_le_dec 5 total then
      if Qlt_le_dec accuracy 0.8 then 0 else Qmin 10 (inject_Z total * 0.5)
    else 0 in
  clamp 0 100 (accuracy * 100 + bonus).

(** Section 4.2: the five adjustments of the priority score *)
Definition spec_masteryFactor (progress : option UserProgress) : Q :=
  match progress with
  | Some p => (100 - masteryLevel p) * 0.5
  | None => 25
  end.

(** whole days since the last practice: the elapsed milliseconds divided
    by one day, rounded down *)
Definition spec_days (now : Z) (p : UserProgress) : Z :=
  ((now - lastPracticed p) / 86400000)%Z.

Definition spec_recencyFactor (now : Z) (progress : option UserProgress) : Q :=
  match progress with
  | Some p => Qmin (inject_Z (spec_days now p) * 2) 20
  | None => 0
  end.

Definition spec_difficultyFactor (difficulty : string) : Q :=
  if string_dec difficulty "easy" then 5
  else if string_dec difficulty "medium" then 10
  else if string_dec difficulty "hard" then 15
  else 0.

Definition spec_recentPenalty (wasRecentlyAttempted : bool) : Q :=
  if wasRecentlyAttempted then 30 else 0.

Definition spec_successFactor (progress : option UserProgress) : Q :=
  match progress with
  | Some p =>
      if Z_lt_dec 0 (totalAttempts p) then
        let rate := inject_Z (correctAttempts p) / inject_Z (totalAttempts p) in
        if Qlt_le_dec rate 0.5 then 20
        else if Qlt_le_dec 0.8 rate then -10
        else 0
      else 0
  | None => 0
  end.

Definition spec_priority (now : Z) (question : Question)
    (progress : option UserProgress) (wasRecentlyAttempted : bool) : Q :=
  clamp 0 100
    (50 + spec_masteryFactor progress + spec_recencyFactor now progress
        + spec_difficultyFactor (q_difficulty question)
        - spec_recentPenalty wasRecentlyAttempted
        + spec_successFactor progress).

(** Section 4.3: the ease factor of the SM-2 update *)
Definition spec_easeFactor (easeFactor performance : Q) : Q :=
  Qmax 1.3
    (easeFactor +
     (0.1 - (5 - performance * 5) * (0.08 + (5 - performance * 5) * 0.02))).

(** Section 4.4: the mastery-tiered threshold and the due test *)
Definition spec_threshold (mastery : Q) : Z :=
  if Qlt_le_dec mastery 60 then 1
  else if Qlt_le_dec mastery 80 then 3
  else 7.

Definition spec_due (now : Z) (p : UserProgress) : Prop :=
  (spec_threshold (masteryLevel p) <= spec_days now p)%Z.

(** Section 4.1 ranking policy: [a] may stand before [b] *)
Definition ranks_before (a b : QuestionPriority) : Prop :=
  qp_priority b < qp_priority a \/
  (qp_priority a == qp_priority b /\ qp_masteryLevel a <= qp_masteryLevel b).

(** Section 3: the counters of a progress row *)
Definition counters_ok (p : UserProgress) : Prop :=
  (correctAttempts p <= totalAttempts p)%Z /\
  (totalAttempts p = 0 -> correctAttempts p = 0)%Z.

(** a counter counts attempts, it is never negative *)
Definition counters_wf (p : UserProgress) : Prop :=
  (0 <= correctAttempts p)%Z /\ counters_ok p.

(** the operations that write progress rows *)
Inductive ProgressOp :=
| OpAttempt (uid tp : string) (isCorrect : bool)
| OpPerformance (uid tp : string) (performance : Q).

Definition runOp (now : Z) (cuid : string) (db : Db) (op : ProgressOp) : Db :=
  match op with
  | OpAttempt uid tp isCorrect => fst (updateUserProgress db now cuid uid tp isCorrect)
  | OpPerformance uid tp performance => fst (updateMasteryLevel db now cuid uid tp performance)
  end.

(** a run of operations, each with the clock value and the fresh id it sees *)
Definition runOps (db : Db) (ops : list (Z * string * ProgressOp)) : Db :=
  fold_left (fun db '(now, cuid, op) => runOp now cuid db op) ops db.

Definition emptyDb (qs : list Question) : Db := mkDb qs [] [] [].

(** ** A small database

    The rows of the repository's unit tests: two JavaScript questions and a
    TypeScript one; the learner practised JavaScript eight days ago (mastery
    85) and TypeScript just now (mastery 50), and answered the second
    question a second ago. *)

Definition exampleNow : Z := 1700000000000.

Definition question1 : Question :=
  mkQuestion "question-1" "JavaScript" "What is a closure?"
    "A function with access to its outer scope" "medium".

Definition question2 : Question :=
  mkQuestion "question-2" "JavaScript" "What is hoisting?"
    "Declarations are moved to the top of their scope" "medium".

Definition question3 : Question :=
  mkQuestion "question-3" "TypeScript" "What is a mapped type?"
    "A type built from the keys of another type" "hard".

(** two topics whose questions score the same priority, 75: mastery 80
    with a hard question, mastery 70 with a medium one *)
Definition questionA : Question :=
  mkQuestion "question-a" "Rust" "What is a lifetime?"
    "The scope for which a reference is valid" "hard".

Definition questionB : Question :=
  mkQuestion "question-b" "Go" "What is a goroutine?"
    "A function running concurrently with others" "medium".

Definition tieDb : Db :=
  mkDb [questionA; questionB] [] []
       [mkUserProgress "progress-a" "user-1" "Rust" 80 exampleNow 0 0;
        mkUserProgress "progress-b" "user-1" "Go" 70 exampleNow 0 0].

Definition exampleDb : Db :=
  mkDb [question1; question2; question3]
       [mkQuizSession "session-1" (Some "user-1"%string)]
       [mkQuestionAttempt "attempt-1" "session-1" "question-2" true
          (exampleNow - 1000)]
       [mkUserProgress "progress-1" "user-1" "JavaScript" 85
          (exampleNow - 8 * 86400000) 10 7;
        mkUserProgress "progress-2" "user-1" "TypeScript" 50
          exampleNow 4 1].

(** ** LearningService: recommendations *)

Record LearningRecommendation := mkLearningRecommendation {
  lr_questionId : string;
  lr_priority : Q;
  lr_reason : string;
  lr_topic : string
}.

(** the callback of [allQuestions.forEach] in [getLearningRecommendations] *)
Definition pushRecommendation (now : Z) (userProgress : list UserProgress)
    (recommendations : list LearningRecommendation) (question : Question)
    : list LearningRecommendation :=
  let progress := progress_of_topic userProgress (q_topic question) in
  let priority := calculateQuestionPriority now question progress false in
  let reason :=
    match progress with
    | None => "New topic - start learning"
    | Some p =>
        if Qlt_bool (masteryLevel p) 30 then "Low mastery - needs practice"
        else if Qlt_bool (masteryLevel p) 70
             then "Moderate mastery - continue practicing"
             else "High mastery - maintain knowledge"
    end%string in
  recommendations ++
  [mkLearningRecommendation (q_id question) priority reason (q_topic question)].

(** [getLearningRecommendations(userId)] *)
Definition getLearningRecommendations (db : Db) (now : Z) (uid : string)
    : list LearningRecommendation :=
  let userProgress := userProgress_findMany db uid in
  let allQuestions := questions db in
  let recommendations :=
    fold_left (pushRecommendation now userProgress) allQuestions [] in
  slice0 20 (Array_sort (fun a b => lr_priority b - lr_priority a) recommendations).

(** [prisma.question.groupBy({ by: ['topic'], _count: { id: true } })]: one
    group per topic that occurs, with the number of its questions; the
    groups come in no documented order, here by last occurrence. *)
Definition question_groupBy_topic (db : Db) : list (string * Z) :=
  map (fun tp => (tp, Z.of_nat (List.length (question_findMany_topic db tp))))
      (nodup string_dec (map q_topic (questions db))).

Record TopicRecommendation := mkTopicRecommendation {
  tr_topic : string;
  tr_reason : string;
  tr_priority : Q
}.

(** the callback of [allTopics.map] in [getTopicRecommendations] *)
Definition recommendTopic (now : Z) (userProgress : list UserProgress)
    (topicData : string * Z) : TopicRecommendation :=
  let progress := progress_of_topic userProgress (fst topicData) in
  let '(priority, reason) :=
    match progress with
    | None => (80, "New topic - start learning")
    | Some p =>
        if Qlt_bool (masteryLevel p) 30
        then (90, "Low mastery - needs immediate attention")
        else if Qlt_bool (masteryLevel p) 60
        then (70, "Moderate mastery - continue practicing")
        else if Qlt_bool (masteryLevel p) 80
        then (40, "Good mastery - occasional review")
        else (20, "High mastery - maintenance only")
    end%string in
  let priority :=
    match progress with
    | Some p => priority + Math_min (daysSinceLastPractice now p * 2) 20
    | None => priority
    end in
  mkTopicRecommendation (fst topicData) reason (Math_min 100 priority).

(** [getTopicRecommendations(userId)] *)
Definition getTopicRecommendations (db : Db) (now : Z) (uid : string)
    : list TopicRecommendation :=
  let userProgress := userProgress_findMany db uid in
  let allTopics := question_groupBy_topic db in
  let recommendations := map (recommendTopic now userProgress) allTopics in
  Array_sort (fun a b => tr_priority b - tr_priority a) recommendations.

(** ** AnalyticsService: progress list and performance analysis *)

(** [getUserProgress(userId)]: [findMany] with
    [orderBy: { lastPracticed: 'desc' }] *)
Definition getUserProgress (db : Db) (uid : string) : list UserProgress :=
  Array_sort (fun a b => inject_Z (lastPracticed b) - inject_Z (lastPracticed a))
             (userProgress_findMany db uid).

(** a JavaScript [Map] with string keys: its entries in insertion order *)
Section JsMap.
Context {V : Type}.

Definition Map_has (key : string) (m : list (string * V)) : bool :=
  existsb (fun e => String.eqb (fst e) key) m.

Definition Map_get (key : string) (m : list (string * V)) : option V :=
  option_map snd (find (fun e => String.eqb (fst e) key) m).

Definition Map_set (key : string) (value : V) (m : list (string * V))
    : list (string * V) :=
  if Map_has key m
  then map (fun e => if String.eqb (fst e) key then (key, value) else e) m
  else m ++ [(key, value)].

End JsMap.

(** a [QuestionAttempt] as [findMany({ include: { question: true } })]
    returns it, with the [responseTimeMs] column *)
Record AttemptWithQuestion := mkAttemptWithQuestion {
  aq_attempt : QuestionAttempt;
  aq_responseTimeMs : option Z;
  aq_question : Question
}.

Record TopicData := mkTopicData {
  td_correct : Z;
  td_total : Z;
  td_responseTimes : list Z
}.

Record DayData := mkDayData {
  dd_correct : Z;
  dd_total : Z
}.

Record TopicPerformance := mkTopicPerformance {
  tp_topic : string;
  tp_accuracy : Q;
  tp_totalAttempts : Z;
  tp_correctAttempts : Z;
  tp_averageResponseTime : Q;
  tp_masteryLevel : Q
}.

Record TrendData := mkTrendData {
  t_date : string;
  t_accuracy : Q;
  t_totalAttempts : Z
}.

Record PerformanceAnalysis := mkPerformanceAnalysis {
  pa_overallAccuracy : Q;
  pa_totalAttempts : Z;
  pa_correctAttempts : Z;
  pa_averageResponseTime : Q;
  pa_topicBreakdown : list TopicPerformance;
  pa_weakAreas : list string;
  pa_recommendations : list string;
  pa_improvementTrends : list TrendData
}.

(** [times.length > 0 ? times.reduce((sum, time) => sum + time, 0)
      / times.length : 0] *)
Definition averageOf (times : list Z) : Q :=
  if (0 <? Z.of_nat (List.length times))%Z
  then inject_Z (fold_left Z.add times 0%Z) / inject_Z (Z.of_nat (List.length times))
  else 0.

(** [generateRecommendations(topicBreakdown, overallAccuracy)] *)
Definition generateRecommendations (topicBreakdown : list TopicPerformance)
    (overallAccuracy : Q) : list string :=
  let recommendations :=
    if Qlt_bool overallAccuracy 60 then
      ["Focus on reviewing fundamental concepts before attempting more questions"%string]
    else if Qlt_bool overallAccuracy 80 then
      ["Good progress! Continue practicing to improve accuracy"%string]
    else
      ["Excellent performance! Consider tackling more challenging topics"%string] in
  let weakTopics := filter (fun t => Qlt_bool (tp_accuracy t) 70) topicBreakdown in
  let recommendations :=
    if (0 <? Z.of_nat (List.length weakTopics))%Z
    then recommendations ++
         [("Focus on improving: " ++ String.concat ", " (map tp_topic weakTopics))%string]
    else recommendations in
  let slowTopics :=
    filter (fun t => Qlt_bool 10000 (tp_averageResponseTime t)) topicBreakdown in
  let recommendations :=
    if (0 <? Z.of_nat (List.length slowTopics))%Z
    then recommendations ++
         [("Work on speed for: " ++ String.concat ", " (map tp_topic slowTopics))%string]
    else recommendations in
  recommendations.

(** [userId ? { session: { userId } } : {}]: an absent and an empty user id
    select every attempt *)
Definition whereClause (db : Db) (userId : option string) (a : QuestionAttempt) : bool :=
  match userId with
  | Some uid => if String.eqb uid "" then true else attempt_of_user db uid a
  | None => true
  end.

(** the callback of [recentAttempts.forEach] in [calculateImprovementTrends];
    [toISODate] is [d => d.toISOString().split('T')[0]] *)
Definition countDay (toISODate : Z -> string) (dailyData : list (string * DayData))
    (attempt : QuestionAttempt) : list (string * DayData) :=
  let date := toISODate (a_attemptedAt attempt) in
  let dailyData :=
    if negb (Map_has date dailyData)
    then Map_set date (mkDayData 0 0) dailyData
    else dailyData in
  match Map_get date dailyData with
  | Some dayData =>
      Map_set date
        (mkDayData
           (if a_isCorrect attempt then dd_correct dayData + 1 else dd_correct dayData)
           (dd_total dayData + 1))
        dailyData
  | None => dailyData
  end.

(** [calculateImprovementTrends(userId)]; [sevenDaysAgo] is the date the
    method computes from the local calendar *)
Definition calculateImprovementTrends (db : Db) (toISODate : Z -> string)
    (sevenDaysAgo : Z) (userId : option string) : list TrendData :=
  let recentAttempts :=
    Array_sort (fun a b => inject_Z (a_attemptedAt a) - inject_Z (a_attemptedAt b))
      (filter (fun a => whereClause db userId a && (sevenDaysAgo <=? a_attemptedAt a)%Z)
              (questionAttempts db)) in
  let dailyData := fold_left (countDay toISODate) recentAttempts [] in
  map (fun entry =>
         let '(date, data) := entry in
         mkTrendData date
           (if (0 <? dd_total data)%Z
            then inject_Z (dd_correct data) / inject_Z (dd_total data) * 100
            else 0)
           (dd_total data))
      dailyData.

(** the callback of [attempts.forEach] in [getPerformanceAnalysis] *)
Definition countTopic (topicMap : list (string * TopicData))
    (attempt : AttemptWithQuestion) : list (string * TopicData) :=
  let topic := q_topic (aq_question attempt) in
  let topicMap :=
    if negb (Map_has topic topicMap)
    then Map_set topic (mkTopicData 0 0 []) topicMap
    else topicMap in
  match Map_get topic topicMap with
  | Some topicData =>
      Map_set topic
        (mkTopicData
           (if a_isCorrect (aq_attempt attempt)
            then td_correct topicData + 1 else td_correct topicData)
           (td_total topicData + 1)
           (match aq_responseTimeMs attempt with
            | Some ms => if (ms =? 0)%Z then td_responseTimes topicData
                         else td_responseTimes topicData ++ [ms]
            | None => td_responseTimes topicData
            end))
        topicMap
  | None => topicMap
  end.

(** [getPerformanceAnalysis(userId)]; [attempts] is the result of the first
    query, the attempts selected by [whereClause] with their questions *)
Definition getPerformanceAnalysis (db : Db) (toISODate : Z -> string)
    (sevenDaysAgo : Z) (attempts : list AttemptWithQuestion)
    (userId : option string) : PerformanceAnalysis :=
  if (Z.of_nat (List.length attempts) =? 0)%Z then
    mkPerformanceAnalysis 0 0 0 0 [] [] [] []
  else
    let totalAttempts := Z.of_nat (List.length attempts) in
    let correctAttempts :=
      Z.of_nat (List.length (filter (fun a => a_isCorrect (aq_attempt a)) attempts)) in
    let overallAccuracy := inject_Z correctAttempts / inject_Z totalAttempts * 100 in
    let responseTimes :=
      flat_map (fun a => match aq_responseTimeMs a with
                         | Some ms => [ms]
                         | None => []
                         end) attempts in
    let averageResponseTime := averageOf responseTimes in
    let topicMap := fold_left countTopic attempts [] in
    let userProgress :=
      match userId with
      | Some uid => if String.eqb uid "" then [] else userProgress_findMany db uid
      | None => []
      end in
    let topicBreakdown :=
      map (fun entry =>
             let '(topic, data) := entry in
             let progress := progress_of_topic userProgress topic in
             mkTopicPerformance topic
               (inject_Z (td_correct data) / inject_Z (td_total data) * 100)
               (td_total data) (td_correct data)
               (averageOf (td_responseTimes data))
               (or_zero (option_map masteryLevel progress)))
          topicMap in
    let weakAreas :=
      map tp_topic (filter (fun t => Qlt_bool (tp_accuracy t) 70) topicBreakdown) in
    let recommendations := generateRecommendations topicBreakdown overallAccuracy in
    let improvementTrends :=
      calculateImprovementTrends db toISODate sevenDaysAgo userId in
    mkPerformanceAnalysis overallAccuracy totalAttempts correctAttempts
      averageResponseTime topicBreakdown weakAreas recommendations
      improvementTrends.

(** ** Statements about the progress table *)

Definition progress_key (p : UserProgress) : string * string :=
  (userId p, topic p).

(** the uniqueness constraint [@@unique([userId, topic])] *)
Definition keys_unique (db : Db) : Prop :=
  NoDup (map progress_key (userProgress db)).

Definition op_key (op : ProgressOp) : string * string :=
  match op with
  | OpAttempt uid tp _ => (uid, tp)
  | OpPerformance uid tp _ => (uid, tp)
  end.

(** boolean attempts on one topic, each with its clock value and fresh id *)
Definition attemptOps (uid tp : string) (steps : list (Z * string * bool))
    : list (Z * string * ProgressOp) :=
  map (fun '(now, cuid, isCorrect) => (now, cuid, OpAttempt uid tp isCorrect)) steps.

Definition countCorrect (steps : list (Z * string * bool)) : Z :=
  Z.of_nat (List.length (filter (fun s => snd s) steps)).

(** the counters of a row that may be missing: no row, no attempt *)
Definition counters_of (row : option UserProgress) : Z * Z :=
  match row with
  | Some p => (totalAttempts p, correctAttempts p)
  | None => (0, 0)%Z
  end.

(** a progress row with another mastery level *)
Definition with_mastery (p : UserProgress) (mastery : Q) : UserProgress :=
  mkUserProgress (p_id p) (userId p) (topic p) mastery (lastPracticed p)
    (totalAttempts p) (correctAttempts p).

(** ** Statements about the grouping loops *)

(** the common shape of [countTopic] and [countDay]: enter the key with
    the initial value when the map does not have it, then store the value
    changed by the element *)
Section GroupStep.
Context {A V : Type} (keyOf : A -> string) (init : V) (bump : A -> V -> V).

Definition groupStep (m : list (string * V)) (a : A) : list (string * V) :=
  let key := keyOf a in
  let m := if negb (Map_has key m) then Map_set key init m else m in
  match Map_get key m with
  | Some v => Map_set key (bump a v) m
  | None => m
  end.

End GroupStep.

Definition Zsum (l : list Z) : Z := fold_right Z.add 0%Z l.

(** the elements of a list that belong to a key *)
Definition ofKey {A : Type} (keyOf : A -> string) (key : string) (l : list A) : list A :=
  filter (fun a => String.eqb (keyOf a) key) l.

Definition bumpTopic (attempt : AttemptWithQuestion) (topicData : TopicData) : TopicData :=
  mkTopicData
    (if a_isCorrect (aq_attempt attempt)
     then td_correct topicData + 1 else td_correct topicData)
    (td_total topicData + 1)
    (match aq_responseTimeMs attempt with
     | Some ms => if (ms =? 0)%Z then td_responseTimes topicData
                  else td_responseTimes topicData ++ [ms]
     | None => td_responseTimes topicData
     end).

Definition bumpDay (attempt : QuestionAttempt) (dayData : DayData) : DayData :=
  mkDayData
    (if a_isCorrect attempt then dd_correct dayData + 1 else dd_correct dayData)
    (dd_total dayData + 1).

(** the attempts [calculateImprovementTrends] reads: selected by the user
    id, not older than [sevenDaysAgo] *)
Definition recentAttemptsOf (db : Db) (sevenDaysAgo : Z) (userId : option string)
    : list QuestionAttempt :=
  filter (fun a => whereClause db userId a && (sevenDaysAgo <=? a_attemptedAt a)%Z)
         (questionAttempts db).

Definition attemptTopic (a : AttemptWithQuestion) : string := q_topic (aq_question a).

Definition attemptCorrect (a : AttemptWithQuestion) : bool := a_isCorrect (aq_attempt a).

Definition attemptDate (toISODate : Z -> string) (a : QuestionAttempt) : string :=
  toISODate (a_attemptedAt a).

(** two attempts on JavaScript, one of them correct *)
Definition exampleAttempts : list AttemptWithQuestion :=
  [mkAttemptWithQuestion
     (mkQuestionAttempt "attempt-1" "session-1" "question-1" true (exampleNow - 2000))
     (Some 4000%Z) question1;
   mkAttemptWithQuestion
     (mkQuestionAttempt "attempt-2" "session-1" "question-2" false (exampleNow - 1000))
     None question2].

(** ** Facts about the primitives *)

Lemma Qlt_bool_iff (x y : Q) : Qlt_bool x y = true <-> x < y.
Proof.
  unfold Qlt_bool. rewrite negb_true_iff. split.
  - intros E. apply Qnot_le_lt. intros L. apply Qle_bool_iff in L. congruence.
  - intros L. destruct (Qle_bool y x) eqn:E; trivial.
    apply Qle_bool_iff in E. exfalso. exact (Qlt_not_le _ _ L E).
Qed.

Lemma Qlt_bool_false (x y : Q) : Qlt_bool x y = false <-> y <= x.
Proof.
  unfold Qlt_bool. rewrite negb_false_iff. apply Qle_bool_iff.
Qed.

Lemma Qle_bool_false (x y : Q) : Qle_bool x y = false <-> y < x.
Proof.
  rewrite <- Qlt_bool_iff. unfold Qlt_bool.
  destruct (Qle_bool x y); simpl; intuition congruence.
Qed.

Lemma Qeq_bool_false (x y : Q) : Qeq_bool x y = false <-> ~ x == y.
Proof.
  split.
  - apply Qeq_bool_neq.
  - intros N. destruct (Qeq_bool x y) eqn:E; trivial.
    apply Qeq_bool_iff in E. contradiction.
Qed.

Lemma Qlt_bool_compare (x y : Q) :
  Qlt_bool x y = match x ?= y with Lt => true | _ => false end.
Proof.
  destruct (x ?= y) eqn:C.
  - apply Qlt_bool_false. apply Qeq_alt in C. rewrite C. apply Qle_refl.
  - apply Qlt_bool_iff. apply Qlt_alt. exact C.
  - apply Qlt_bool_false. apply Qlt_le_weak. apply Qgt_alt. exact C.
Qed.

Lemma Math_max_Qmax (a b : Q) : Math_max a b = Qmax a b.
Proof.
  unfold Math_max, Qmax, GenericMinMax.gmax. rewrite Qlt_bool_compare.
  destruct (a ?= b); reflexivity.
Qed.

Lemma Math_min_Qmin (a b : Q) : Math_min a b = Qmin a b.
Proof.
  unfold Math_min, Qmin, GenericMinMax.gmin. rewrite Qlt_bool_compare.
  rewrite <- (Qcompare_antisym a b). destruct (a ?= b); reflexivity.
Qed.

Lemma clamp_in_range (lo hi x : Q) : lo <= hi -> in_range lo hi (clamp lo hi x).
Proof.
  intros L. unfold in_range, clamp.
  destruct (Q.max_spec lo (Qmin hi x)) as [[? ->] | [? ->]];
    destruct (Q.min_spec hi x) as [[? E] | [? E]];
    try rewrite E in *; split; lra.
Qed.

Lemma clamp_compat (lo hi x y : Q) : x == y -> clamp lo hi x == clamp lo hi y.
Proof.
  intros E. unfold clamp. rewrite E. reflexivity.
Qed.

Lemma Math_clamp (lo hi x : Q) : Math_max lo (Math_min hi x) = clamp lo hi x.
Proof.
  unfold clamp. rewrite Math_min_Qmin, Math_max_Qmax. reflexivity.
Qed.

Lemma Math_clamp' (lo hi x : Q) : Math_min hi (Math_max lo x) = Qmin hi (Qmax lo x).
Proof.
  rewrite Math_max_Qmax, Math_min_Qmin. reflexivity.
Qed.

(** the decisions of the code, turned into the propositions they decide *)
Ltac decide_num :=
  repeat match goal with
  | H : Qle_bool _ _ = true |- _ => apply Qle_bool_iff in H
  | H : Qle_bool _ _ = false |- _ => apply Qle_bool_false in H
  | H : Qlt_bool _ _ = true |- _ => apply Qlt_bool_iff in H
  | H : Qlt_bool _ _ = false |- _ => apply Qlt_bool_false in H
  | H : Qeq_bool _ _ = true |- _ => apply Qeq_bool_iff in H
  | H : Qeq_bool _ _ = false |- _ => apply Qeq_bool_false in H
  | H : (_ <=? _)%Z = true |- _ => apply Z.leb_le in H
  | H : (_ <=? _)%Z = false |- _ => apply Z.leb_gt in H
  | H : (_ <? _)%Z = true |- _ => apply Z.ltb_lt in H
  | H : (_ <? _)%Z = false |- _ => apply Z.ltb_ge in H
  | H : (_ =? _)%Z = true |- _ => apply Z.eqb_eq in H
  | H : (_ =? _)%Z = false |- _ => apply Z.eqb_neq in H
  | H : String.eqb _ _ = true |- _ => apply String.eqb_eq in H
  | H : String.eqb _ _ = false |- _ => apply String.eqb_neq in H
  end.

(** ** Mastery model *)





Lemma calculateNewMasteryLevel_spec (currentMastery performance totalAttempts : Q) :
  calculateNewMasteryLevel currentMastery performance totalAttempts ==
  clamp 0 100
    (currentMastery + spec_masteryChange currentMastery performance totalAttempts).
Proof.
  unfold calculateNewMasteryLevel, spec_masteryChange. cbv zeta.
  rewrite (Math_clamp 0 100), (Math_clamp 0 1), Math_min_Qmin.
  apply clamp_compat.
  destruct (Qlt_bool 0.5 (clamp 0 1 performance)) eqn:B;
    destruct (Qlt_le_dec 0.5 (clamp 0 1 performance)) as [L | L];
    decide_num; try (exfalso; lra); ring.
Qed.

(** C5: the continuous rule is the clamp to [0,100] of the old mastery plus
    the change of section 4.1 (performance clamped to [0,1], learning rate
    [0.1 * (1 - mastery/100)], the rewarding or the halved penalising term,
    the stability factor); at (50, 0.5, 0) the change is 0 and the result
    is 50. *)
Theorem calculateNewMasteryLevel_formula :
  (forall currentMastery performance totalAttempts : Q,
      calculateNewMasteryLevel currentMastery performance totalAttempts ==
      clamp 0 100
        (currentMastery
         + spec_masteryChange currentMastery performance totalAttempts)) /\
  spec_masteryChange 50 0.5 0 == 0 /\
  calculateNewMasteryLevel 50 0.5 0 == 50.
Proof.
  split; [| split].
  - apply calculateNewMasteryLevel_spec.
  - reflexivity.
  - reflexivity.
Qed.

Lemma min_max_clamp (x : Q) : Qmin 100 (Qmax 0 x) == clamp 0 100 x.
Proof.
  unfold clamp.
  destruct (Q.min_spec 100 (Qmax 0 x)) as [[? ->] | [? ->]];
    destruct (Q.max_spec 0 (Qmin 100 x)) as [[? ->] | [? ->]];
    destruct (Q.max_spec 0 x) as [[? E] | [? E]];
    destruct (Q.min_spec 100 x) as [[? F] | [? F]];
    try rewrite E in *; try rewrite F in *; lra.
Qed.

Lemma calculateMasteryLevel_spec (correct total : Z) :
  total <> 0%Z ->
  calculateMasteryLevel correct total == spec_accuracyMastery correct total.
Proof.
  intros N. unfold calculateMasteryLevel, spec_accuracyMastery.
  destruct (total =? 0)%Z eqn:Z0; decide_num; [contradiction |].
  cbv zeta. rewrite Math_clamp', min_max_clamp, Math_min_Qmin.
  apply clamp_compat.
  set (accuracy := inject_Z correct / inject_Z total).
  destruct (5 <=? total)%Z eqn:T; destruct (Z_le_dec 5 total) as [T' | T'];
    decide_num; try lia; cbn [andb].
  - destruct (Qle_bool 0.8 accuracy) eqn:A;
      destruct (Qlt_le_dec accuracy 0.8) as [A' | A'];
      decide_num; try (exfalso; lra); ring.
  - ring.
Qed.

Lemma updateUserProgress_row (db : Db) (now : Z) (cuid uid tp : string)
    (isCorrect : bool) :
  let row := snd (updateUserProgress db now cuid uid tp isCorrect) in
  masteryLevel row = calculateMasteryLevel (correctAttempts row) (totalAttempts row).
Proof.
  unfold updateUserProgress.
  destruct (userProgress_findUnique db uid tp); reflexivity.
Qed.

Lemma find_none_has_key (uid tp : string) (rows : list UserProgress) (p : UserProgress) :
  find (has_key uid tp) rows = None -> In p rows -> has_key uid tp p = false.
Proof.
  intros F I. exact (find_none _ _ F p I).
Qed.

Lemma updateUserProgress_stored (db : Db) (now : Z) (cuid uid tp : string)
    (isCorrect : bool) (p : UserProgress) :
  In p (userProgress (fst (updateUserProgress db now cuid uid tp isCorrect))) ->
  has_key uid tp p = true ->
  masteryLevel p = calculateMasteryLevel (correctAttempts p) (totalAttempts p).
Proof.
  unfold updateUserProgress, userProgress_findUnique.
  destruct (find (has_key uid tp) (userProgress db)) as [e |] eqn:F; cbn.
  - rewrite in_map_iff. intros (p0 & E & I) K.
    destruct (has_key uid tp p0) eqn:K0.
    + subst p. reflexivity.
    + subst p. congruence.
  - rewrite in_app_iff. intros [I | [E | []]] K.
    + rewrite (find_none_has_key _ _ _ _ F I) in K. discriminate.
    + subst p. reflexivity.
Qed.

(** C6: [calculateMasteryLevel] is 0 without attempts; otherwise it is the
    accuracy times 100, plus [min(10, totalAttempts * 0.5)] exactly when
    there are at least 5 attempts and the accuracy is at least 0.8, clamped
    to [0,100]; 8 correct answers out of 10 give 85.  [updateUserProgress]
    stores that value, computed from the counters it stores, on every
    attempt. *)
Theorem calculateMasteryLevel_formula :
  (forall correctAttempts : Z, calculateMasteryLevel correctAttempts 0 == 0) /\
  (forall correctAttempts totalAttempts : Z,
      totalAttempts <> 0%Z ->
      calculateMasteryLevel correctAttempts totalAttempts ==
      spec_accuracyMastery correctAttempts totalAttempts) /\
  calculateMasteryLevel 8 10 == 85 /\
  (forall db now cuid uid tp isCorrect,
      let result := updateUserProgress db now cuid uid tp isCorrect in
      masteryLevel (snd result) =
        calculateMasteryLevel (correctAttempts (snd result))
                              (totalAttempts (snd result)) /\
      In (snd result) (userProgress (fst result)) /\
      forall p, In p (userProgress (fst result)) -> has_key uid tp p = true ->
        masteryLevel p =
          calculateMasteryLevel (correctAttempts p) (totalAttempts p)).
Proof.
  split; [| split; [| split]].
  - intros. reflexivity.
  - apply calculateMasteryLevel_spec.
  - reflexivity.
  - intros. split; [| split].
    + apply updateUserProgress_row.
    + unfold result, updateUserProgress, userProgress_findUnique.
      destruct (find (has_key uid tp) (userProgress db)) as [e |] eqn:F; cbn.
      * apply in_map_iff. exists e. destruct (find_some _ _ F) as [I K].
        rewrite K. auto.
      * apply in_app_iff. right. left. reflexivity.
    + intros p. apply updateUserProgress_stored.
Qed.

(** the theorem above at 4 correct answers out of 5 attempts *)
Lemma calculateMasteryLevel_formula_witness :
  5%Z <> 0%Z /\
  calculateMasteryLevel 4 5 == spec_accuracyMastery 4 5.
Proof.
  assert (N : 5%Z <> 0%Z) by discriminate.
  split; [exact N |].
  exact (proj1 (proj2 calculateMasteryLevel_formula) 4%Z 5%Z N).
Defined.

(** ** Spaced-repetition interval *)


Lemma newEaseFactor_spec (currentInterval repetitions easeFactor performance : Q) :
  newEaseFactor
    (calculateSpacedRepetitionInterval currentInterval repetitions easeFactor performance)
  = spec_easeFactor easeFactor performance.
Proof.
  unfold calculateSpacedRepetitionInterval, spec_easeFactor.
  rewrite Math_max_Qmax.
  destruct (Qle_bool 0.6 performance); reflexivity.
Qed.

Lemma interval_on_pass (currentInterval repetitions easeFactor performance : Q) :
  0.6 <= performance ->
  let r := calculateSpacedRepetitionInterval
             currentInterval repetitions easeFactor performance in
  newRepetitions r == repetitions + 1 /\
  (repetitions == 0 -> newInterval r == 1) /\
  (repetitions == 1 -> newInterval r == 6) /\
  (~ repetitions == 0 -> ~ repetitions == 1 ->
   newInterval r == Math_round (currentInterval * easeFactor)).
Proof.
  intros P. unfold calculateSpacedRepetitionInterval.
  apply Qle_bool_iff in P. rewrite P. cbn [newRepetitions newInterval].
  split; [reflexivity |].
  destruct (Qeq_bool repetitions 0) eqn:R0;
    destruct (Qeq_bool repetitions 1) eqn:R1; decide_num;
    repeat split; intros; try reflexivity; try contradiction; exfalso; lra.
Qed.

Lemma interval_on_fail (currentInterval repetitions easeFactor performance : Q) :
  performance < 0.6 ->
  let r := calculateSpacedRepetitionInterval
             currentInterval repetitions easeFactor performance in
  newRepetitions r = 0 /\ newInterval r = 1.
Proof.
  intros P. unfold calculateSpacedRepetitionInterval.
  apply Qle_bool_false in P. rewrite P. split; reflexivity.
Qed.







(** ** Priority score *)

Lemma daysSinceLastPractice_days (now : Z) (p : UserProgress) :
  daysSinceLastPractice now p = inject_Z (spec_days now p).
Proof.
  unfold daysSinceLastPractice, spec_days, Math_floor. f_equal.
  rewrite (Zdiv_Qdiv (now - lastPracticed p) 86400000).
  apply Qfloor_comp. unfold Zminus.
  rewrite inject_Z_plus, inject_Z_opp. reflexivity.
Qed.

Lemma difficulty_step (difficulty : string) (x : Q) :
  (if String.eqb difficulty "easy" then x + 5
   else if String.eqb difficulty "medium" then x + 10
   else if String.eqb difficulty "hard" then x + 15
   else x) == x + spec_difficultyFactor difficulty.
Proof.
  unfold spec_difficultyFactor.
  destruct (String.eqb difficulty "easy") eqn:E;
    destruct (string_dec difficulty "easy") as [E' | E'];
    decide_num; try contradiction; [ring |].
  destruct (String.eqb difficulty "medium") eqn:M;
    destruct (string_dec difficulty "medium") as [M' | M'];
    decide_num; try contradiction; [ring |].
  destruct (String.eqb difficulty "hard") eqn:H;
    destruct (string_dec difficulty "hard") as [H' | H'];
    decide_num; try contradiction; ring.
Qed.

Lemma success_step (p : UserProgress) (x : Q) :
  (if (0 <? totalAttempts p)%Z then
     if Qlt_bool (inject_Z (correctAttempts p) / inject_Z (totalAttempts p)) 0.5
     then x + 20
     else if Qlt_bool 0.8 (inject_Z (correctAttempts p) / inject_Z (totalAttempts p))
          then x - 10
          else x
   else x) == x + spec_successFactor (Some p).
Proof.
  unfold spec_successFactor.
  set (rate := inject_Z (correctAttempts p) / inject_Z (totalAttempts p)).
  destruct (0 <? totalAttempts p)%Z eqn:T;
    destruct (Z_lt_dec 0 (totalAttempts p)) as [T' | T'];
    decide_num; try lia; [| ring].
  destruct (Qlt_bool rate 0.5) eqn:L;
    destruct (Qlt_le_dec rate 0.5) as [L' | L'];
    decide_num; try (exfalso; lra); [ring |].
  destruct (Qlt_bool 0.8 rate) eqn:G;
    destruct (Qlt_le_dec 0.8 rate) as [G' | G'];
    decide_num; try (exfalso; lra); ring.
Qed.

Lemma calculateQuestionPriority_spec (now : Z) (question : Question)
    (progress : option UserProgress) (wasRecentlyAttempted : bool) :
  calculateQuestionPriority now question progress wasRecentlyAttempted ==
  spec_priority now question progress wasRecentlyAttempted.
Proof.
  unfold calculateQuestionPriority, spec_priority. cbv zeta.
  rewrite (Math_clamp 0 100). apply clamp_compat.
  destruct progress as [p |].
  - rewrite success_step. unfold spec_recentPenalty.
    destruct wasRecentlyAttempted; rewrite difficulty_step;
      unfold spec_masteryFactor, spec_recencyFactor;
      rewrite Math_min_Qmin, daysSinceLastPractice_days; ring.
  - unfold spec_recentPenalty, spec_successFactor.
    destruct wasRecentlyAttempted; rewrite difficulty_step;
      unfold spec_masteryFactor, spec_recencyFactor; ring.
Qed.

(** C2: [calculateQuestionPriority] is the clamp to [0,100] of 50, plus
    [(100 - masteryLevel) * 0.5] with a progress row and 25 without, plus
    [min(days * 2, 20)] with a progress row, plus 5, 10 or 15 for an easy,
    medium or hard question, minus 30 after a recent attempt, plus 20 or
    minus 10 when the row has attempts and its success rate is below 0.5 or
    above 0.8.  A medium question of a topic without progress scores 85,
    and 55 after a recent attempt. *)
Theorem calculateQuestionPriority_formula :
  (forall now question progress wasRecentlyAttempted,
      calculateQuestionPriority now question progress wasRecentlyAttempted ==
      spec_priority now question progress wasRecentlyAttempted /\
      in_range 0 100
        (calculateQuestionPriority now question progress wasRecentlyAttempted)) /\
  (forall now id tp text answer,
      let question := mkQuestion id tp text answer "medium" in
      calculateQuestionPriority now question None false == 85 /\
      calculateQuestionPriority now question None true == 55).
Proof.
  split.
  - intros. split.
    + apply calculateQuestionPriority_spec.
    + unfold calculateQuestionPriority. cbv zeta.
      rewrite (Math_clamp 0 100). apply clamp_in_range. lra.
  - intros. split; reflexivity.
Qed.

(** ** Sorting and slicing arrays *)

Section ArraySortFacts.
Context {A : Type} (compareFn : A -> A -> Q) (R : A -> A -> Prop).
Hypothesis R_trans : forall x y z, R x y -> R y z -> R x z.
Hypothesis kept : forall x y, compareFn x y <= 0 -> R x y.
Hypothesis swapped : forall x y, 0 < compareFn x y -> R y x.

Lemma sort_insert_perm (x : A) (l : list A) :
  Permutation (sort_insert compareFn x l) (x :: l).
Proof.
  induction l as [| y l IH]; cbn.
  - apply Permutation_refl.
  - destruct (Qlt_bool 0 (compareFn x y)).
    + apply perm_trans with (y :: x :: l).
      * apply perm_skip. exact IH.
      * apply perm_swap.
    + apply Permutation_refl.
Qed.

Lemma Array_sort_perm (l : list A) : Permutation (Array_sort compareFn l) l.
Proof.
  induction l as [| x l IH]; cbn.
  - apply perm_nil.
  - apply perm_trans with (x :: Array_sort compareFn l).
    + apply sort_insert_perm.
    + apply perm_skip. exact IH.
Qed.

Lemma sort_insert_hd (x y : A) (l : list A) :
  R y x -> HdRel R y l -> HdRel R y (sort_insert compareFn x l).
Proof.
  intros Ryx H. destruct l as [| z l]; cbn.
  - constructor. exact Ryx.
  - inversion H; subst. destruct (Qlt_bool 0 (compareFn x z)); constructor; assumption.
Qed.

Lemma sort_insert_sorted (x : A) (l : list A) :
  Sorted R l -> Sorted R (sort_insert compareFn x l).
Proof.
  induction l as [| y l IH]; cbn; intros S.
  - repeat constructor.
  - inversion S as [| ? ? S' H]; subst.
    destruct (Qlt_bool 0 (compareFn x y)) eqn:C; decide_num.
    + constructor.
      * apply IH. exact S'.
      * apply sort_insert_hd; [apply swapped; exact C | exact H].
    + constructor; [exact S |]. constructor. apply kept. exact C.
Qed.

Lemma Array_sort_sorted (l : list A) : StronglySorted R (Array_sort compareFn l).
Proof.
  apply Sorted_StronglySorted.
  - exact R_trans.
  - induction l as [| x l IH]; cbn.
    + constructor.
    + apply sort_insert_sorted. exact IH.
Qed.
End ArraySortFacts.

Lemma slice0_firstn {A : Type} (count : Z) (arr : list A) :
  (0 <= count)%Z -> slice0 count arr = firstn (Z.to_nat count) arr.
Proof.
  intros C. unfold slice0.
  destruct (count <? 0)%Z eqn:N; decide_num; [lia |].
  destruct (Z.min_spec count (Z.of_nat (List.length arr))) as [[L ->] | [L ->]].
  - reflexivity.
  - rewrite Nat2Z.id. rewrite firstn_all.
    symmetry. apply firstn_all2. lia.
Qed.

(** ** Ranked candidates *)

Lemma ranks_before_trans (a b c : QuestionPriority) :
  ranks_before a b -> ranks_before b c -> ranks_before a c.
Proof.
  unfold ranks_before. intros [L1 | [E1 M1]] [L2 | [E2 M2]].
  - left. lra.
  - left. lra.
  - left. lra.
  - right. split; lra.
Qed.

Lemma comparePriority_kept (a b : QuestionPriority) :
  comparePriority a b <= 0 -> ranks_before a b.
Proof.
  unfold comparePriority, ranks_before.
  destruct (Qeq_bool (qp_priority a) (qp_priority b)) eqn:E; cbn [negb];
    decide_num; intros C.
  - right. split; [exact E | lra].
  - left. destruct (Qlt_le_dec (qp_priority b) (qp_priority a)) as [L | L];
      [exact L |]. exfalso. apply E. lra.
Qed.

Lemma comparePriority_swapped (a b : QuestionPriority) :
  0 < comparePriority a b -> ranks_before b a.
Proof.
  unfold comparePriority, ranks_before.
  destruct (Qeq_bool (qp_priority a) (qp_priority b)) eqn:E; cbn [negb];
    decide_num; intros C.
  - right. split; lra.
  - left. lra.
Qed.

Lemma questionPriorities_questions (db : Db) (now : Z) (uid : string) :
  map qp_question (questionPriorities db now uid) = questions db.
Proof.
  unfold questionPriorities. cbv zeta. rewrite map_map. cbn. apply map_id.
Qed.

(** C8: [getNextQuestions] scores every question of the bank, and for a
    count that is not negative returns the questions of the first [count]
    entries of the scored list put in ranking order: the order is a
    rearrangement of the scored list in which an entry stands before
    another one only if its priority is greater, or the priorities are
    equal and its mastery level is not greater. *)
Theorem getNextQuestions_ranked (db : Db) (now : Z) (uid : string) (count : Z) :
  (0 <= count)%Z ->
  let scored := questionPriorities db now uid in
  let ranked := Array_sort comparePriority scored in
  map qp_question scored = questions db /\
  Forall (fun e =>
            let progress :=
              progress_of_topic (userProgress_findMany db uid)
                                (q_topic (qp_question e)) in
            qp_priority e =
              calculateQuestionPriority now (qp_question e) progress
                (existsb (String.eqb (q_id (qp_question e)))
                   (map a_questionId (questionAttempt_findRecent db uid 20))) /\
            qp_masteryLevel e = or_zero (option_map masteryLevel progress))
         scored /\
  Permutation ranked scored /\
  StronglySorted ranks_before ranked /\
  getNextQuestions db now uid count =
    map qp_question (firstn (Z.to_nat count) ranked).
Proof.
  intros C scored ranked. repeat split.
  - apply questionPriorities_questions.
  - unfold scored, questionPriorities. cbv zeta.
    apply Forall_forall. intros e I. apply in_map_iff in I.
    destruct I as (q & <- & _). cbn. split; reflexivity.
  - apply Array_sort_perm.
  - apply (Array_sort_sorted comparePriority ranks_before).
    + apply ranks_before_trans.
    + apply comparePriority_kept.
    + apply comparePriority_swapped.
  - unfold getNextQuestions. rewrite slice0_firstn by exact C. reflexivity.
Qed.

(** ** Due list *)

Lemma reviewInterval_threshold (p : UserProgress) :
  reviewInterval p = inject_Z (spec_threshold (masteryLevel p)).
Proof.
  unfold reviewInterval, spec_threshold.
  destruct (Qle_bool 80 (masteryLevel p)) eqn:H80;
    destruct (Qle_bool 60 (masteryLevel p)) eqn:H60;
    destruct (Qlt_le_dec (masteryLevel p) 60) as [L60 | L60];
    destruct (Qlt_le_dec (masteryLevel p) 80) as [L80 | L80];
    decide_num; try reflexivity; exfalso; lra.
Qed.

Lemma due_test (now : Z) (p : UserProgress) :
  Qle_bool (reviewInterval p) (daysSinceLastPractice now p) = true <->
  spec_due now p.
Proof.
  unfold spec_due.
  rewrite reviewInterval_threshold, daysSinceLastPractice_days, Qle_bool_iff.
  rewrite <- Zle_Qle. reflexivity.
Qed.

Lemma pushDue_fold_in (db : Db) (now : Z) (rows : list UserProgress)
    (acc : list string) (id : string) :
  In id (fold_left (pushDue db now) rows acc) <->
  In id acc \/
  exists p, In p rows /\ spec_due now p /\
            In id (map q_id (question_findMany_topic db (topic p))).
Proof.
  revert acc. induction rows as [| r rows IH]; intros acc; cbn [fold_left].
  - split; [auto | intros [I | (p & [] & _)]; exact I].
  - rewrite IH. unfold pushDue.
    destruct (Qle_bool (reviewInterval r) (daysSinceLastPractice now r)) eqn:D.
    + apply due_test in D. rewrite in_app_iff. split.
      * intros [[I | I] | (p & I & S & Q)].
        -- left. exact I.
        -- right. exists r. split; [left; reflexivity | split; assumption].
        -- right. exists p. split; [right; exact I | split; assumption].
      * intros [I | (p & [E | I] & S & Q)].
        -- left. left. exact I.
        -- subst p. left. right. exact Q.
        -- right. exists p. split; [exact I | split; assumption].
    + split.
      * intros [I | (p & I & S & Q)].
        -- left. exact I.
        -- right. exists p. split; [right; exact I | split; assumption].
      * intros [I | (p & [E | I] & S & Q)].
        -- left. exact I.
        -- subst p. apply due_test in S. congruence.
        -- right. exists p. split; [exact I | split; assumption].
Qed.

Lemma NoDup_map_eq {A B : Type} (f : A -> B) (l : list A) (x y : A) :
  NoDup (map f l) -> In x l -> In y l -> f x = f y -> x = y.
Proof.
  induction l as [| a l IH]; cbn; intros N Ix Iy E; [contradiction |].
  inversion N as [| ? ? Na Nl]; subst.
  destruct Ix as [-> | Ix]; destruct Iy as [-> | Iy].
  - reflexivity.
  - exfalso. apply Na. rewrite E. apply in_map. exact Iy.
  - exfalso. apply Na. rewrite <- E. apply in_map. exact Ix.
  - apply IH; assumption.
Qed.

Lemma getQuestionsForReview_in (db : Db) (now : Z) (uid : string) (q : Question) :
  NoDup (map q_id (questions db)) ->
  In q (getQuestionsForReview db now uid) <->
  In q (questions db) /\
  exists p, In p (userProgress db) /\ userId p = uid /\
            topic p = q_topic q /\ spec_due now p.
Proof.
  intros N. unfold getQuestionsForReview, question_findMany_in. cbv zeta.
  rewrite filter_In, existsb_exists. split.
  - intros (I & id & Iid & E). decide_num. split; [exact I |].
    apply pushDue_fold_in in Iid. destruct Iid as [[] | (p & Ip & S & Iq)].
    unfold userProgress_findMany in Ip. apply filter_In in Ip.
    destruct Ip as (Ip & U). decide_num.
    apply in_map_iff in Iq. destruct Iq as (q' & E' & Iq').
    unfold question_findMany_topic in Iq'. apply filter_In in Iq'.
    destruct Iq' as (Iq' & T). decide_num.
    assert (q' = q) as ->.
    { apply (NoDup_map_eq q_id (questions db)); try assumption. congruence. }
    exists p. auto.
  - intros (I & p & Ip & U & T & S). split; [exact I |].
    exists (q_id q). split; [| apply String.eqb_refl].
    apply pushDue_fold_in. right. exists p. split; [| split; [exact S |]].
    + unfold userProgress_findMany. apply filter_In. split; [exact Ip |].
      apply String.eqb_eq. exact U.
    + apply in_map. unfold question_findMany_topic. apply filter_In.
      split; [exact I |]. apply String.eqb_eq. congruence.
Qed.

(** C7: the due test of [getQuestionsForReview] holds exactly when the
    whole days since [lastPracticed] reach the threshold of the mastery
    tier (7 from 80, 3 from 60, 1 below); with unique question ids, the
    result holds exactly the questions of the bank whose topic has a due
    progress row of the learner, each once; a question whose topic has no
    progress row of the learner is not returned. *)
Theorem getQuestionsForReview_due (db : Db) (now : Z) (uid : string) :
  NoDup (map q_id (questions db)) ->
  let due := getQuestionsForReview db now uid in
  (forall p : UserProgress,
      Qle_bool (reviewInterval p) (daysSinceLastPractice now p) = true <->
      ((if Qlt_le_dec (masteryLevel p) 60 then 1
        else if Qlt_le_dec (masteryLevel p) 80 then 3
        else 7) <= (now - lastPracticed p) / 86400000)%Z) /\
  (forall q : Question,
      In q due <->
      In q (questions db) /\
      exists p, In p (userProgress db) /\ userId p = uid /\
                topic p = q_topic q /\ spec_due now p) /\
  NoDup due /\
  (forall tp : string,
      (forall p, In p (userProgress db) -> userId p = uid -> topic p <> tp) ->
      forall q, In q due -> q_topic q <> tp).
Proof.
  intros N due. split; [| split; [| split]].
  - intros p. rewrite due_test. reflexivity.
  - intros q. apply getQuestionsForReview_in. exact N.
  - unfold due, getQuestionsForReview, question_findMany_in. cbv zeta.
    apply NoDup_filter. apply (NoDup_map_inv q_id). exact N.
  - intros tp Absent q I E.
    apply (getQuestionsForReview_in db now uid q N) in I.
    destruct I as (_ & p & Ip & U & T & _).
    apply (Absent p Ip U). congruence.
Qed.

(** the two theorems above on the small database *)
Example exampleDb_review :
  getQuestionsForReview exampleDb exampleNow "user-1" = [question1; question2].
Proof. vm_compute. reflexivity. Qed.

Example exampleDb_next :
  getNextQuestions exampleDb exampleNow "user-1" 2 = [question3; question1].
Proof. vm_compute. reflexivity. Qed.

Example tieDb_priorities :
  Forall2 Qeq (map qp_priority (questionPriorities tieDb exampleNow "user-1"))
              [75; 75].
Proof. repeat constructor. Qed.

Example tieDb_next :
  getNextQuestions tieDb exampleNow "user-1" 2 = [questionB; questionA].
Proof. vm_compute. reflexivity. Qed.

Lemma exampleDb_unique_ids : NoDup (map q_id (questions exampleDb)).
Proof.
  cbn. repeat constructor; cbn; intuition discriminate.
Defined.

Lemma getQuestionsForReview_due_witness :
  NoDup (map q_id (questions exampleDb)) /\
  NoDup (getQuestionsForReview exampleDb exampleNow "user-1") /\
  (forall q, In q (getQuestionsForReview exampleDb exampleNow "user-1") ->
             q_topic q <> "TypeScript"%string).
Proof.
  split; [exact exampleDb_unique_ids |].
  pose proof (getQuestionsForReview_due exampleDb exampleNow "user-1"
                exampleDb_unique_ids) as (_ & M & N & _).
  split; [exact N |].
  intros q I E. apply M in I. destruct I as (_ & p & Ip & _ & T & S).
  cbn in Ip. destruct Ip as [<- | [<- | []]].
  - rewrite E in T. discriminate T.
  - vm_compute in S. apply S. reflexivity.
Defined.

Lemma getNextQuestions_ranked_witness :
  (0 <= 2)%Z /\
  getNextQuestions exampleDb exampleNow "user-1" 2 =
    map qp_question
      (firstn 2 (Array_sort comparePriority
                   (questionPriorities exampleDb exampleNow "user-1"))).
Proof.
  assert (C : (0 <= 2)%Z) by lia.
  split; [exact C |].
  exact (proj2 (proj2 (proj2 (proj2
           (getNextQuestions_ranked exampleDb exampleNow "user-1" 2 C))))).
Defined.

(** ** Progress rows *)

Lemma counters_wf_ok (p : UserProgress) : counters_wf p -> counters_ok p.
Proof. intros [_ H]. exact H. Qed.

Lemma updateUserProgress_wf (db : Db) (now : Z) (cuid uid tp : string)
    (isCorrect : bool) :
  Forall counters_wf (userProgress db) ->
  Forall counters_wf
    (userProgress (fst (updateUserProgress db now cuid uid tp isCorrect))).
Proof.
  intros W. unfold updateUserProgress.
  destruct (userProgress_findUnique db uid tp) as [e |] eqn:F; cbn.
  - apply Forall_map. unfold userProgress_findUnique in F.
    destruct (find_some _ _ F) as [Ie _].
    rewrite Forall_forall in W. pose proof (W e Ie) as (N & L & _).
    apply Forall_forall. intros p I.
    destruct (has_key uid tp p); [| exact (W p I)].
    unfold counters_wf, counters_ok. cbn. destruct isCorrect; lia.
  - apply Forall_app. split; [exact W |].
    constructor; [| constructor].
    unfold counters_wf, counters_ok. cbn. destruct isCorrect; lia.
Qed.

Lemma updateMasteryLevel_wf (db : Db) (now : Z) (cuid uid tp : string)
    (performance : Q) :
  Forall counters_wf (userProgress db) ->
  Forall counters_wf
    (userProgress (fst (updateMasteryLevel db now cuid uid tp performance))).
Proof.
  intros W. unfold updateMasteryLevel.
  destruct (userProgress_findUnique db uid tp) as [e |] eqn:F; cbn.
  - apply Forall_map. apply Forall_forall. intros p I.
    rewrite Forall_forall in W.
    destruct (has_key uid tp p); [| exact (W p I)].
    exact (W p I).
  - apply Forall_app. split; [exact W |].
    constructor; [| constructor].
    unfold counters_wf, counters_ok. cbn.
    destruct (Qlt_bool 0.5 performance); lia.
Qed.

Lemma runOp_wf (now : Z) (cuid : string) (db : Db) (op : ProgressOp) :
  Forall counters_wf (userProgress db) ->
  Forall counters_wf (userProgress (runOp now cuid db op)).
Proof.
  destruct op; cbn.
  - apply updateUserProgress_wf.
  - apply updateMasteryLevel_wf.
Qed.

Lemma runOp_correct_le_total (now : Z) (cuid : string) (db : Db) (op : ProgressOp) :
  Forall (fun p => (correctAttempts p <= totalAttempts p)%Z) (userProgress db) ->
  Forall (fun p => (correctAttempts p <= totalAttempts p)%Z)
         (userProgress (runOp now cuid db op)).
Proof.
  intros W. rewrite Forall_forall in W.
  destruct op as [uid tp isCorrect | uid tp performance]; cbn.
  - unfold updateUserProgress, userProgress_findUnique.
    destruct (find (has_key uid tp) (userProgress db)) as [e |] eqn:F; cbn.
    + destruct (find_some _ _ F) as [Ie _]. pose proof (W e Ie) as L.
      apply Forall_map. apply Forall_forall. intros p I.
      destruct (has_key uid tp p); [| exact (W p I)].
      cbn. destruct isCorrect; lia.
    + apply Forall_app. split; [apply Forall_forall; exact W |].
      constructor; [| constructor]. cbn. destruct isCorrect; lia.
  - unfold updateMasteryLevel, userProgress_findUnique.
    destruct (find (has_key uid tp) (userProgress db)) as [e |] eqn:F; cbn.
    + apply Forall_map. apply Forall_forall. intros p I.
      destruct (has_key uid tp p); exact (W p I).
    + apply Forall_app. split; [apply Forall_forall; exact W |].
      constructor; [| constructor]. cbn.
      destruct (Qlt_bool 0.5 performance); lia.
Qed.

Lemma runOps_wf (ops : list (Z * string * ProgressOp)) (db : Db) :
  Forall counters_wf (userProgress db) ->
  Forall counters_wf (userProgress (runOps db ops)).
Proof.
  revert db. induction ops as [| [[now cuid] op] ops IH]; intros db W; cbn.
  - exact W.
  - apply IH. apply runOp_wf. exact W.
Qed.

(** C9: an attempt ([updateUserProgress]) or a performance sample
    ([updateMasteryLevel]) leaves every progress row with
    [correctAttempts <= totalAttempts] when the rows had it before, and
    also with no correct attempt when there is no attempt when the rows had
    both before (counters are counts, not negative); a created row has one
    attempt and zero or one correct attempt; an updated row gains a correct
    attempt only together with an attempt.  Hence every row of every run of
    operations from an empty table has the two properties. *)
Theorem progress_counters_preserved :
  (forall db now cuid op,
      Forall (fun p => (correctAttempts p <= totalAttempts p)%Z) (userProgress db) ->
      Forall (fun p => (correctAttempts p <= totalAttempts p)%Z)
             (userProgress (runOp now cuid db op))) /\
  (forall db now cuid op,
      Forall counters_wf (userProgress db) ->
      Forall counters_wf (userProgress (runOp now cuid db op))) /\
  (forall db now cuid uid tp,
      userProgress_findUnique db uid tp = None ->
      (forall isCorrect,
          let row := snd (updateUserProgress db now cuid uid tp isCorrect) in
          totalAttempts row = 1%Z /\
          correctAttempts row = (if isCorrect then 1 else 0)%Z) /\
      (forall performance,
          let row := snd (updateMasteryLevel db now cuid uid tp performance) in
          totalAttempts row = 1%Z /\
          (correctAttempts row = 0%Z \/ correctAttempts row = 1%Z))) /\
  (forall db now cuid uid tp existing,
      userProgress_findUnique db uid tp = Some existing ->
      (forall isCorrect,
          let row := snd (updateUserProgress db now cuid uid tp isCorrect) in
          totalAttempts row = (totalAttempts existing + 1)%Z /\
          correctAttempts row =
            (correctAttempts existing + if isCorrect then 1 else 0)%Z) /\
      (forall performance,
          let row := snd (updateMasteryLevel db now cuid uid tp performance) in
          totalAttempts row = totalAttempts existing /\
          correctAttempts row = correctAttempts existing)) /\
  (forall qs ops,
      Forall counters_ok (userProgress (runOps (emptyDb qs) ops))).
Proof.
  split; [| split; [| split; [| split]]].
  - intros. apply runOp_correct_le_total. assumption.
  - intros. apply runOp_wf. assumption.
  - intros db now cuid uid tp F. split; intros; subst row.
    + unfold updateUserProgress. rewrite F. cbn. auto.
    + unfold updateMasteryLevel. rewrite F. cbn.
      destruct (Qlt_bool 0.5 performance); auto.
  - intros db now cuid uid tp existing F. split; intros; subst row.
    + unfold updateUserProgress. rewrite F. cbn. auto.
    + unfold updateMasteryLevel. rewrite F. cbn. auto.
  - intros qs ops. apply Forall_impl with (P := counters_wf).
    + apply counters_wf_ok.
    + apply runOps_wf. constructor.
Qed.

Lemma exampleDb_counters : Forall counters_wf (userProgress exampleDb).
Proof.
  repeat constructor; cbn; lia.
Defined.

(** the theorem above for a correct TypeScript answer on the small database *)
Lemma progress_counters_preserved_witness :
  Forall counters_wf (userProgress exampleDb) /\
  Forall counters_wf
    (userProgress
       (runOp exampleNow "progress-3" exampleDb
          (OpAttempt "user-1" "TypeScript" true))).
Proof.
  split; [exact exampleDb_counters |].
  apply (proj1 (proj2 progress_counters_preserved)). exact exampleDb_counters.
Defined.

(** C10: when the row of (learner, topic) exists, [updateMasteryLevel]
    rewrites its [masteryLevel] and [lastPracticed] and nothing else: the
    returned row keeps id, key and both counters, the attempt counters of
    the whole table are the ones from before, and the other tables are
    untouched; [updateUserProgress] on the same row adds one attempt. *)
Theorem updateMasteryLevel_keeps_counters
    (db : Db) (now : Z) (cuid uid tp : string) (performance : Q)
    (existing : UserProgress) :
  userProgress_findUnique db uid tp = Some existing ->
  let result := updateMasteryLevel db now cuid uid tp performance in
  let newMasteryLevel :=
    calculateNewMasteryLevel
      (or_zero (Some (masteryLevel existing))) performance
      (or_zero (Some (inject_Z (totalAttempts existing)))) in
  snd result =
    mkUserProgress (p_id existing) (userId existing) (topic existing)
      newMasteryLevel now (totalAttempts existing) (correctAttempts existing) /\
  List.length (userProgress (fst result)) = List.length (userProgress db) /\
  map totalAttempts (userProgress (fst result)) = map totalAttempts (userProgress db) /\
  map correctAttempts (userProgress (fst result)) =
    map correctAttempts (userProgress db) /\
  map p_id (userProgress (fst result)) = map p_id (userProgress db) /\
  map userId (userProgress (fst result)) = map userId (userProgress db) /\
  map topic (userProgress (fst result)) = map topic (userProgress db) /\
  (forall p, In p (userProgress db) -> has_key uid tp p = false ->
             In p (userProgress (fst result))) /\
  questions (fst result) = questions db /\
  quizSessions (fst result) = quizSessions db /\
  questionAttempts (fst result) = questionAttempts db /\
  (forall isCorrect,
      totalAttempts (snd (updateUserProgress db now cuid uid tp isCorrect)) =
      (totalAttempts existing + 1)%Z).
Proof.
  intros F result newMasteryLevel. subst result newMasteryLevel.
  unfold updateMasteryLevel. rewrite F. cbn [fst snd option_map].
  unfold userProgress_update. cbn [userProgress questions quizSessions questionAttempts].
  repeat split.
  - apply length_map.
  - rewrite map_map. apply map_ext. intros p. destruct (has_key uid tp p); reflexivity.
  - rewrite map_map. apply map_ext. intros p. destruct (has_key uid tp p); reflexivity.
  - rewrite map_map. apply map_ext. intros p. destruct (has_key uid tp p); reflexivity.
  - rewrite map_map. apply map_ext. intros p. destruct (has_key uid tp p); reflexivity.
  - rewrite map_map. apply map_ext. intros p. destruct (has_key uid tp p); reflexivity.
  - intros p I K. apply in_map_iff. exists p. rewrite K. auto.
  - intros isCorrect. unfold updateUserProgress. rewrite F. reflexivity.
Qed.

(** the theorem above for the JavaScript row of the small database *)
Lemma updateMasteryLevel_keeps_counters_witness :
  userProgress_findUnique exampleDb "user-1" "JavaScript" =
    Some (mkUserProgress "progress-1" "user-1" "JavaScript" 85
            (exampleNow - 8 * 86400000) 10 7) /\
  map totalAttempts
    (userProgress
       (fst (updateMasteryLevel exampleDb exampleNow "progress-3"
               "user-1" "JavaScript" 0.8))) = [10; 4]%Z.
Proof.
  assert (F : userProgress_findUnique exampleDb "user-1" "JavaScript" =
              Some (mkUserProgress "progress-1" "user-1" "JavaScript" 85
                      (exampleNow - 8 * 86400000) 10 7)) by reflexivity.
  split; [exact F |].
  exact (proj1 (proj2 (proj2
           (updateMasteryLevel_keeps_counters exampleDb exampleNow "progress-3"
              "user-1" "JavaScript" 0.8 _ F)))).
Defined.

(** ** The progress table as a keyed store *)

Lemma has_key_iff (uid tp : string) (p : UserProgress) :
  has_key uid tp p = true <-> progress_key p = (uid, tp).
Proof.
  unfold has_key, progress_key. rewrite andb_true_iff, !String.eqb_eq.
  split; [intros [-> ->]; reflexivity | intros E; inversion E; auto].
Qed.

Lemma has_key_refl (id uid tp : string) (m : Q) (last total correct : Z) :
  has_key uid tp (mkUserProgress id uid tp m last total correct) = true.
Proof.
  unfold has_key. cbn. rewrite !String.eqb_refl. reflexivity.
Qed.

Lemma find_map_same {A : Type} (P : A -> bool) (f : A -> A) (l : list A) :
  (forall x, P (f x) = P x) -> find P (map f l) = option_map f (find P l).
Proof.
  intros H. induction l as [| x l IH]; cbn; [reflexivity |].
  rewrite H. destruct (P x); [reflexivity | exact IH].
Qed.

Lemma find_app_last {A : Type} (P : A -> bool) (l : list A) (x : A) :
  find P (l ++ [x]) =
  match find P l with
  | Some y => Some y
  | None => if P x then Some x else None
  end.
Proof.
  induction l as [| y l IH]; cbn; [reflexivity |].
  destruct (P y); [reflexivity | exact IH].
Qed.

Lemma find_none_not_in_keys (db : Db) (uid tp : string) :
  userProgress_findUnique db uid tp = None ->
  ~ In (uid, tp) (map progress_key (userProgress db)).
Proof.
  unfold userProgress_findUnique. intros F I.
  apply in_map_iff in I. destruct I as (p & K & I).
  apply has_key_iff in K. rewrite (find_none _ _ F p I) in K. discriminate.
Qed.

Lemma NoDup_snoc {A : Type} (l : list A) (x : A) :
  NoDup l -> ~ In x l -> NoDup (l ++ [x]).
Proof.
  intros N I. apply NoDup_app.
  - exact N.
  - repeat constructor. intros [].
  - intros y Iy [<- | []]. exact (I Iy).
Qed.

Lemma update_keeps_keys (db : Db) (uid tp : string) (data : UserProgress -> UserProgress) :
  (forall p, progress_key (data p) = progress_key p) ->
  map progress_key (userProgress (userProgress_update db uid tp data)) =
  map progress_key (userProgress db).
Proof.
  intros H. cbn. rewrite map_map. apply map_ext. intros p.
  destruct (has_key uid tp p); [apply H | reflexivity].
Qed.

(** X1: an attempt or a performance sample keeps the pair (userId, topic)
    unique among the progress rows, and adds a row exactly when the pair had
    none: the table grows by one row then and keeps its size otherwise. *)
Theorem progress_keys_stay_unique (db : Db) (now : Z) (cuid : string)
    (op : ProgressOp) :
  keys_unique db ->
  keys_unique (runOp now cuid db op) /\
  List.length (userProgress (runOp now cuid db op)) =
    (List.length (userProgress db) +
     match userProgress_findUnique db (fst (op_key op)) (snd (op_key op)) with
     | Some _ => 0
     | None => 1
     end)%nat.
Proof.
  unfold keys_unique. intros U.
  destruct op as [uid tp isCorrect | uid tp performance]; cbn [runOp op_key fst snd].
  - unfold updateUserProgress.
    destruct (userProgress_findUnique db uid tp) as [e |] eqn:F; cbn [fst].
    + split.
      * rewrite update_keeps_keys; [exact U | reflexivity].
      * cbn. rewrite length_map. lia.
    + split.
      * cbn. rewrite map_app. cbn. apply NoDup_snoc; [exact U |].
        apply find_none_not_in_keys. exact F.
      * cbn. rewrite length_app. reflexivity.
  - unfold updateMasteryLevel.
    destruct (userProgress_findUnique db uid tp) as [e |] eqn:F; cbn [fst].
    + split.
      * rewrite update_keeps_keys; [exact U | reflexivity].
      * cbn. rewrite length_map. lia.
    + split.
      * cbn. rewrite map_app. cbn. apply NoDup_snoc; [exact U |].
        apply find_none_not_in_keys. exact F.
      * cbn. rewrite length_app. reflexivity.
Qed.

Lemma exampleDb_keys_unique : keys_unique exampleDb.
Proof.
  unfold keys_unique. cbn. repeat constructor; cbn; intuition discriminate.
Defined.

(** the theorem above for a first Rust answer on the small database *)
Lemma progress_keys_stay_unique_witness :
  keys_unique exampleDb /\
  keys_unique (runOp exampleNow "progress-3" exampleDb
                 (OpAttempt "user-1" "Rust" true)) /\
  List.length (userProgress (runOp exampleNow "progress-3" exampleDb
                               (OpAttempt "user-1" "Rust" true))) = 3%nat.
Proof.
  split; [exact exampleDb_keys_unique |].
  exact (progress_keys_stay_unique exampleDb exampleNow "progress-3"
           (OpAttempt "user-1" "Rust" true) exampleDb_keys_unique).
Defined.

Lemma update_lookup (db : Db) (uid tp : string) (data : UserProgress -> UserProgress)
    (e : UserProgress) :
  (forall p, progress_key (data p) = progress_key p) ->
  userProgress_findUnique db uid tp = Some e ->
  userProgress_findUnique (userProgress_update db uid tp data) uid tp = Some (data e).
Proof.
  intros H F. unfold userProgress_findUnique in *. cbn.
  rewrite find_map_same.
  - rewrite F. cbn. destruct (find_some _ _ F) as [_ K]. rewrite K. reflexivity.
  - intros p. destruct (has_key uid tp p) eqn:K; [| exact K].
    apply has_key_iff. rewrite H. apply has_key_iff. exact K.
Qed.

Lemma update_lookup_other (db : Db) (uid tp uid' tp' : string)
    (data : UserProgress -> UserProgress) :
  (forall p, progress_key (data p) = progress_key p) ->
  (uid', tp') <> (uid, tp) ->
  userProgress_findUnique (userProgress_update db uid tp data) uid' tp' =
  userProgress_findUnique db uid' tp'.
Proof.
  intros H N. unfold userProgress_findUnique. cbn.
  rewrite find_map_same.
  - destruct (find (has_key uid' tp') (userProgress db)) as [p |] eqn:F; cbn;
      [| reflexivity].
    destruct (find_some _ _ F) as [_ K].
    destruct (has_key uid tp p) eqn:K'; [| reflexivity].
    apply has_key_iff in K, K'. congruence.
  - intros p. destruct (has_key uid tp p) eqn:K; [| reflexivity].
    destruct (has_key uid' tp' p) eqn:K'.
    + apply has_key_iff. rewrite H. apply has_key_iff. exact K'.
    + destruct (has_key uid' tp' (data p)) eqn:K''; [| reflexivity].
      apply has_key_iff in K''. rewrite H in K''. apply has_key_iff in K''.
      congruence.
Qed.

Lemma create_lookup (db : Db) (id uid tp : string) (m : Q) (last total correct : Z) :
  userProgress_findUnique db uid tp = None ->
  userProgress_findUnique
    (userProgress_create db (mkUserProgress id uid tp m last total correct)) uid tp =
  Some (mkUserProgress id uid tp m last total correct).
Proof.
  intros F. unfold userProgress_findUnique in *. cbn.
  rewrite find_app_last, F, has_key_refl. reflexivity.
Qed.

Lemma create_lookup_other (db : Db) (id uid tp uid' tp' : string) (m : Q)
    (last total correct : Z) :
  (uid', tp') <> (uid, tp) ->
  userProgress_findUnique
    (userProgress_create db (mkUserProgress id uid tp m last total correct)) uid' tp' =
  userProgress_findUnique db uid' tp'.
Proof.
  intros N. unfold userProgress_findUnique. cbn. rewrite find_app_last.
  destruct (find (has_key uid' tp') (userProgress db)); [reflexivity |].
  destruct (has_key uid' tp' (mkUserProgress id uid tp m last total correct)) eqn:K;
    [| reflexivity].
  apply has_key_iff in K. unfold progress_key in K. cbn in K. congruence.
Qed.

Lemma updateUserProgress_lookup (db : Db) (now : Z) (cuid uid tp : string)
    (isCorrect : bool) :
  userProgress_findUnique (fst (updateUserProgress db now cuid uid tp isCorrect)) uid tp =
  Some (snd (updateUserProgress db now cuid uid tp isCorrect)).
Proof.
  unfold updateUserProgress.
  destruct (userProgress_findUnique db uid tp) as [e |] eqn:F; cbn [fst snd].
  - rewrite (update_lookup db uid tp _ e); [reflexivity | reflexivity | exact F].
  - apply create_lookup. exact F.
Qed.

Lemma updateMasteryLevel_lookup (db : Db) (now : Z) (cuid uid tp : string)
    (performance : Q) :
  userProgress_findUnique (fst (updateMasteryLevel db now cuid uid tp performance)) uid tp =
  Some (snd (updateMasteryLevel db now cuid uid tp performance)).
Proof.
  unfold updateMasteryLevel.
  destruct (userProgress_findUnique db uid tp) as [e |] eqn:F; cbn [fst snd].
  - rewrite (update_lookup db uid tp _ e); [reflexivity | reflexivity | exact F].
  - apply create_lookup. exact F.
Qed.

Lemma runOp_lookup_other (now : Z) (cuid : string) (db : Db) (op : ProgressOp)
    (uid' tp' : string) :
  (uid', tp') <> op_key op ->
  userProgress_findUnique (runOp now cuid db op) uid' tp' =
  userProgress_findUnique db uid' tp'.
Proof.
  destruct op as [uid tp isCorrect | uid tp performance]; cbn [runOp op_key]; intros N.
  - unfold updateUserProgress.
    destruct (userProgress_findUnique db uid tp) as [e |] eqn:F; cbn [fst].
    + apply update_lookup_other; [reflexivity | exact N].
    + apply create_lookup_other. exact N.
  - unfold updateMasteryLevel.
    destruct (userProgress_findUnique db uid tp) as [e |] eqn:F; cbn [fst].
    + apply update_lookup_other; [reflexivity | exact N].
    + apply create_lookup_other. exact N.
Qed.

(** X2: after [updateUserProgress] or [updateMasteryLevel], looking up the
    pair (userId, topic) it was called with finds the row it returned, and
    looking up any other pair finds what it found before. *)
Theorem progress_lookup_after_write :
  (forall db now cuid uid tp isCorrect,
      userProgress_findUnique
        (fst (updateUserProgress db now cuid uid tp isCorrect)) uid tp =
      Some (snd (updateUserProgress db now cuid uid tp isCorrect))) /\
  (forall db now cuid uid tp performance,
      userProgress_findUnique
        (fst (updateMasteryLevel db now cuid uid tp performance)) uid tp =
      Some (snd (updateMasteryLevel db now cuid uid tp performance))) /\
  (forall db now cuid op uid' tp',
      (uid', tp') <> op_key op ->
      userProgress_findUnique (runOp now cuid db op) uid' tp' =
      userProgress_findUnique db uid' tp').
Proof.
  split; [| split].
  - apply updateUserProgress_lookup.
  - apply updateMasteryLevel_lookup.
  - intros. apply runOp_lookup_other. assumption.
Qed.

(** the theorem above: a Rust answer leaves the JavaScript row in place *)
Lemma progress_lookup_after_write_witness :
  (("user-1", "JavaScript") <> ("user-1", "Rust"))%string /\
  userProgress_findUnique
    (runOp exampleNow "progress-3" exampleDb (OpAttempt "user-1" "Rust" true))
    "user-1" "JavaScript" =
  userProgress_findUnique exampleDb "user-1" "JavaScript".
Proof.
  assert (N : (("user-1", "JavaScript") <> ("user-1", "Rust"))%string)
    by discriminate.
  split; [exact N |].
  exact (proj2 (proj2 progress_lookup_after_write) exampleDb exampleNow
           "progress-3"%string (OpAttempt "user-1" "Rust" true) _ _ N).
Defined.

Lemma runOps_app (db : Db) (ops1 ops2 : list (Z * string * ProgressOp)) :
  runOps db (ops1 ++ ops2) = runOps (runOps db ops1) ops2.
Proof.
  unfold runOps. apply fold_left_app.
Qed.

Lemma runOps_cons (db : Db) (now : Z) (cuid : string) (op : ProgressOp)
    (ops : list (Z * string * ProgressOp)) :
  runOps db ((now, cuid, op) :: ops) = runOps (runOp now cuid db op) ops.
Proof. reflexivity. Qed.

Lemma attempt_counters (db : Db) (now : Z) (cuid uid tp : string) (isCorrect : bool) :
  counters_of
    (userProgress_findUnique (fst (updateUserProgress db now cuid uid tp isCorrect)) uid tp) =
  ((fst (counters_of (userProgress_findUnique db uid tp)) + 1)%Z,
   (snd (counters_of (userProgress_findUnique db uid tp))
    + if isCorrect then 1 else 0)%Z).
Proof.
  rewrite updateUserProgress_lookup. unfold updateUserProgress.
  destruct (userProgress_findUnique db uid tp) as [e |]; cbn.
  - reflexivity.
  - destruct isCorrect; reflexivity.
Qed.

Lemma countCorrect_cons (s : Z * string * bool) (steps : list (Z * string * bool)) :
  countCorrect (s :: steps) = ((if snd s then 1 else 0) + countCorrect steps)%Z.
Proof.
  unfold countCorrect. cbn. destruct (snd s); cbn [List.length]; lia.
Qed.

Lemma attempts_counters (uid tp : string) (steps : list (Z * string * bool)) (db : Db) :
  counters_of (userProgress_findUnique (runOps db (attemptOps uid tp steps)) uid tp) =
  ((fst (counters_of (userProgress_findUnique db uid tp))
    + Z.of_nat (List.length steps))%Z,
   (snd (counters_of (userProgress_findUnique db uid tp)) + countCorrect steps)%Z).
Proof.
  revert db. induction steps as [| [[now cuid] isCorrect] steps IH]; intros db.
  - cbn. unfold countCorrect. cbn. rewrite !Z.add_0_r.
    destruct (counters_of (userProgress_findUnique db uid tp)). reflexivity.
  - change (attemptOps uid tp ((now, cuid, isCorrect) :: steps))
      with ((now, cuid, OpAttempt uid tp isCorrect) :: attemptOps uid tp steps).
    rewrite runOps_cons. cbn [runOp].
    rewrite IH, attempt_counters, countCorrect_cons. cbn [fst snd].
    f_equal; cbn [List.length]; lia.
Qed.

Lemma attempts_mastery (uid tp : string) (steps : list (Z * string * bool)) (db : Db) :
  steps <> [] ->
  exists row,
    userProgress_findUnique (runOps db (attemptOps uid tp steps)) uid tp = Some row /\
    masteryLevel row = calculateMasteryLevel (correctAttempts row) (totalAttempts row) /\
    lastPracticed row = fst (fst (last steps (0%Z, ""%string, false))).
Proof.
  intros N. destruct (exists_last N) as (steps' & [[now cuid] isCorrect] & ->).
  unfold attemptOps. rewrite map_app, runOps_app. cbn [map].
  set (db1 := runOps db _).
  change (runOps db1 [(now, cuid, OpAttempt uid tp isCorrect)])
    with (fst (updateUserProgress db1 now cuid uid tp isCorrect)).
  rewrite updateUserProgress_lookup. eexists. split; [reflexivity |].
  rewrite last_last. cbn [fst]. unfold updateUserProgress.
  destruct (userProgress_findUnique db1 uid tp); split; reflexivity.
Qed.

(** X3: a run of boolean attempts on one topic counts: afterwards the row
    of (userId, topic) exists, its [totalAttempts] is the old value (0
    without a row) plus the number of attempts, its [correctAttempts] the
    old value plus the number of correct ones, its [masteryLevel] is
    [calculateMasteryLevel] of these two counters and its [lastPracticed]
    the time of the last attempt. *)
Theorem attempts_accumulate (db : Db) (uid tp : string)
    (steps : list (Z * string * bool)) :
  steps <> [] ->
  exists row,
    userProgress_findUnique (runOps db (attemptOps uid tp steps)) uid tp = Some row /\
    totalAttempts row =
      (fst (counters_of (userProgress_findUnique db uid tp))
       + Z.of_nat (List.length steps))%Z /\
    correctAttempts row =
      (snd (counters_of (userProgress_findUnique db uid tp)) + countCorrect steps)%Z /\
    masteryLevel row = calculateMasteryLevel (correctAttempts row) (totalAttempts row) /\
    lastPracticed row = fst (fst (last steps (0%Z, ""%string, false))).
Proof.
  intros N. destruct (attempts_mastery uid tp steps db N) as (row & F & M & L).
  exists row. pose proof (attempts_counters uid tp steps db) as C.
  rewrite F in C. cbn [counters_of] in C. inversion C as [[T K]].
  repeat split; assumption.
Qed.

(** the theorem above: three Rust answers, two of them correct *)
Lemma attempts_accumulate_witness :
  [(exampleNow, "progress-3", true); ((exampleNow + 1)%Z, "progress-4", false);
   ((exampleNow + 2)%Z, "progress-5", true)]%string <> [] /\
  exists row,
    userProgress_findUnique
      (runOps exampleDb
         (attemptOps "user-1" "Rust"
            [(exampleNow, "progress-3", true); ((exampleNow + 1)%Z, "progress-4", false);
             ((exampleNow + 2)%Z, "progress-5", true)]%string))
      "user-1" "Rust" = Some row /\
    totalAttempts row = 3%Z /\ correctAttempts row = 2%Z.
Proof.
  assert (N : [(exampleNow, "progress-3", true);
               ((exampleNow + 1)%Z, "progress-4", false);
               ((exampleNow + 2)%Z, "progress-5", true)]%string <> [])
    by discriminate.
  split; [exact N |].
  destruct (attempts_accumulate exampleDb "user-1" "Rust" _ N)
    as (row & F & T & C & _).
  exists row. split; [exact F |]. split; [exact T | exact C].
Defined.

(** ** How a performance sample moves the mastery *)

Lemma clamp_mono (lo hi x y : Q) : x <= y -> clamp lo hi x <= clamp lo hi y.
Proof.
  intros L. unfold clamp.
  destruct (Q.max_spec lo (Qmin hi x)) as [[? ->] | [? ->]];
    destruct (Q.max_spec lo (Qmin hi y)) as [[? ->] | [? ->]];
    destruct (Q.min_spec hi x) as [[? E] | [? E]];
    destruct (Q.min_spec hi y) as [[? F] | [? F]];
    try rewrite E in *; try rewrite F in *; lra.
Qed.

Lemma clamp_between (lo hi x a b : Q) :
  lo <= hi -> a <= x -> x <= b -> lo <= b -> a <= hi ->
  Qmin a lo <= clamp lo hi x /\ clamp lo hi x <= Qmax b lo /\
  (lo <= a -> b <= hi -> clamp lo hi x == x).
Proof.
  intros. unfold clamp.
  destruct (Q.max_spec lo (Qmin hi x)) as [[? ->] | [? ->]];
    destruct (Q.min_spec hi x) as [[? E] | [? E]];
    destruct (Q.min_spec a lo) as [[? ->] | [? ->]];
    destruct (Q.max_spec b lo) as [[? ->] | [? ->]];
    try rewrite E in *; repeat split; intros; lra.
Qed.

Lemma clamp01 (p : Q) :
  0 <= clamp 0 1 p /\ clamp 0 1 p <= 1 /\
  (0.5 < p -> 0.5 < clamp 0 1 p) /\ (p <= 0.5 -> clamp 0 1 p <= 0.5) /\
  (p == 0.5 -> clamp 0 1 p == 0.5).
Proof.
  unfold clamp.
  destruct (Q.max_spec 0 (Qmin 1 p)) as [[? ->] | [? ->]];
    destruct (Q.min_spec 1 p) as [[? E] | [? E]];
    try rewrite E in *; repeat split; intros; lra.
Qed.

Lemma stability01 (totalAttempts : Q) :
  0 <= totalAttempts -> 0 <= Qmin 1 (totalAttempts / 10) /\ Qmin 1 (totalAttempts / 10) <= 1.
Proof.
  intros T. unfold Qdiv. cbn [Qinv Qnum Qden].
  destruct (Q.min_spec 1 (totalAttempts * (1 # 10))) as [[? ->] | [? ->]]; split; lra.
Qed.

Lemma masteryChange_bounds (currentMastery np s : Q) :
  0 <= currentMastery -> currentMastery <= 100 ->
  0 <= np -> np <= 1 -> 0 <= s -> s <= 1 ->
  (0.5 < np ->
     0 <= 0.1 * (1 - currentMastery / 100) * (np - 0.5) * 100 * (1 + s) /\
     0.1 * (1 - currentMastery / 100) * (np - 0.5) * 100 * (1 + s)
       <= 10 * (1 - currentMastery / 100)) /\
  (np <= 0.5 ->
     - (5 * (1 - currentMastery / 100))
       <= - (0.1 * (1 - currentMastery / 100)) * (0.5 - np) * 50 * (1 + s) /\
     - (0.1 * (1 - currentMastery / 100)) * (0.5 - np) * 50 * (1 + s) <= 0).
Proof.
  intros. unfold Qdiv. cbn [Qinv Qnum Qden].
  set (l := 1 - currentMastery * (1 # 100)).
  assert (0 <= l /\ l <= 1) as [L0 L1] by (unfold l; split; lra).
  clearbody l. split; intros P.
  - set (u := (np - 0.5) * (1 + s)).
    assert (0 <= u /\ u <= 1) as [U0 U1] by (unfold u; split; nra).
    assert (0 <= l * u /\ l * u <= l) as [W0 W1] by (clearbody u; split; nra).
    assert (E : 0.1 * l * (np - 0.5) * 100 * (1 + s) == 10 * (l * u))
      by (unfold u; ring).
    rewrite E. split; lra.
  - set (u := (0.5 - np) * (1 + s)).
    assert (0 <= u /\ u <= 1) as [U0 U1] by (unfold u; split; nra).
    assert (0 <= l * u /\ l * u <= l) as [W0 W1] by (clearbody u; split; nra).
    assert (E : - (0.1 * l) * (0.5 - np) * 50 * (1 + s) == - (5 * (l * u)))
      by (unfold u; ring).
    rewrite E. split; lra.
Qed.

Lemma calculateNewMasteryLevel_unfold (currentMastery performance totalAttempts : Q) :
  calculateNewMasteryLevel currentMastery performance totalAttempts =
  clamp 0 100
    (currentMastery +
     (if Qlt_bool 0.5 (clamp 0 1 performance)
      then 0.1 * (1 - currentMastery / 100) * (clamp 0 1 performance - 0.5) * 100
      else - (0.1 * (1 - currentMastery / 100)) * (0.5 - clamp 0 1 performance) * 50)
     * (1 + Qmin 1 (totalAttempts / 10))).
Proof.
  unfold calculateNewMasteryLevel. cbv zeta.
  rewrite (Math_clamp 0 100), (Math_clamp 0 1), Math_min_Qmin. reflexivity.
Qed.

(** X4: for a mastery in [0,100] and a number of attempts that is not
    negative, a performance above 0.5 never lowers the mastery and raises
    it by at most [10 * (1 - mastery/100)]; a performance of at most 0.5
    never raises it and lowers it by at most [5 * (1 - mastery/100)]; a
    performance of exactly 0.5 leaves it as it is; and a mastery below 100
    never reaches 100. *)
Theorem mastery_moves_with_performance
    (currentMastery performance totalAttempts : Q) :
  0 <= currentMastery -> currentMastery <= 100 -> 0 <= totalAttempts ->
  let r := calculateNewMasteryLevel currentMastery performance totalAttempts in
  (0.5 < performance ->
     currentMastery <= r /\ r <= currentMastery + 10 * (1 - currentMastery / 100)) /\
  (performance <= 0.5 ->
     currentMastery - 5 * (1 - currentMastery / 100) <= r /\ r <= currentMastery) /\
  (performance == 0.5 -> r == currentMastery) /\
  (currentMastery < 100 -> r < 100).
Proof.
  intros M0 M1 T r. unfold r. rewrite calculateNewMasteryLevel_unfold.
  destruct (clamp01 performance) as (N0 & N1 & NH & NL & NE).
  destruct (stability01 totalAttempts T) as (S0 & S1).
  destruct (masteryChange_bounds currentMastery (clamp 0 1 performance)
              (Qmin 1 (totalAttempts / 10)) M0 M1 N0 N1 S0 S1) as (G & L).
  set (np := clamp 0 1 performance) in *.
  set (s := Qmin 1 (totalAttempts / 10)) in *.
  assert (D : 10 * (1 - currentMastery / 100) == 10 - currentMastery * (1 # 10))
    by (unfold Qdiv; cbn [Qinv Qnum Qden]; ring).
  assert (D' : 5 * (1 - currentMastery / 100) == 5 - currentMastery * (1 # 20))
    by (unfold Qdiv; cbn [Qinv Qnum Qden]; ring).
  destruct (Qlt_bool 0.5 np) eqn:B; decide_num.
  - destruct (G B) as (G0 & G1).
    set (change := 0.1 * (1 - currentMastery / 100) * (np - 0.5) * 100 * (1 + s)) in *.
    rewrite D in G1. rewrite D, D'. clearbody change.
    unfold clamp.
    destruct (Q.max_spec 0 (Qmin 100 (currentMastery + change))) as [[? ->] | [? ->]];
      destruct (Q.min_spec 100 (currentMastery + change)) as [[? E] | [? E]];
      try rewrite E in *; repeat split; intros;
      try lra; exfalso; pose proof (NL ltac:(lra)); lra.
  - destruct (L B) as (L0 & L1).
    assert (Z : performance == 0.5 ->
                - (0.1 * (1 - currentMastery / 100)) * (0.5 - np) * 50 * (1 + s) == 0).
    { intros P. rewrite (NE P). ring. }
    set (change := - (0.1 * (1 - currentMastery / 100)) * (0.5 - np) * 50 * (1 + s)) in *.
    rewrite D' in L0. rewrite D, D'. clearbody change.
    unfold clamp.
    destruct (Q.max_spec 0 (Qmin 100 (currentMastery + change))) as [[? ->] | [? ->]];
      destruct (Q.min_spec 100 (currentMastery + change)) as [[? E] | [? E]];
      try rewrite E in *; repeat split; intros;
      try lra;
      try (pose proof (Z ltac:(assumption)); lra);
      exfalso; pose proof (NH ltac:(lra)); lra.
Qed.

(** the theorem above at mastery 60 after 4 attempts, performance 0.9 *)
Lemma mastery_moves_with_performance_witness :
  (0 <= 60 /\ 60 <= 100 /\ 0 <= 4 /\ 0.5 < 0.9) /\
  60 <= calculateNewMasteryLevel 60 0.9 4 /\
  calculateNewMasteryLevel 60 0.9 4 <= 60 + 10 * (1 - 60 / 100).
Proof.
  assert (A : 0 <= 60) by (vm_compute; discriminate).
  assert (B : 60 <= 100) by (vm_compute; discriminate).
  assert (C : 0 <= 4) by (vm_compute; discriminate).
  assert (D : 0.5 < 0.9) by (vm_compute; reflexivity).
  split; [repeat split; assumption |].
  exact (proj1 (mastery_moves_with_performance 60 0.9 4 A B C) D).
Defined.




(** ** The accuracy rule *)

Lemma accuracy_range (correct total : Z) :
  (0 <= correct <= total)%Z -> (0 < total)%Z ->
  0 <= inject_Z correct / inject_Z total /\ inject_Z correct / inject_Z total <= 1.
Proof.
  intros [C0 C1] T.
  assert (T' : 0 < inject_Z total) by (change 0 with (inject_Z 0); rewrite <- Zlt_Qlt; exact T).
  split.
  - apply Qle_shift_div_l; [exact T' |]. rewrite Qmult_0_l.
    change 0 with (inject_Z 0). rewrite <- Zle_Qle. exact C0.
  - apply Qle_shift_div_r; [exact T' |]. rewrite Qmult_1_l.
    rewrite <- Zle_Qle. exact C1.
Qed.

Lemma accuracy_mono (correct correct' total : Z) :
  (correct <= correct')%Z -> (0 < total)%Z ->
  inject_Z correct / inject_Z total <= inject_Z correct' / inject_Z total.
Proof.
  intros C T. unfold Qdiv. apply Qmult_le_compat_r.
  - rewrite <- Zle_Qle. exact C.
  - apply Qinv_le_0_compat. change 0 with (inject_Z 0). rewrite <- Zle_Qle. lia.
Qed.

Lemma calculateMasteryLevel_unfold (correct total : Z) :
  (0 < total)%Z ->
  calculateMasteryLevel correct total =
  Qmin 100
    (Qmax 0
       (if (5 <=? total)%Z && Qle_bool 0.8 (inject_Z correct / inject_Z total)
        then inject_Z correct / inject_Z total * 100 + Qmin 10 (inject_Z total * 0.5)
        else inject_Z correct / inject_Z total * 100)).
Proof.
  intros T. unfold calculateMasteryLevel.
  destruct (total =? 0)%Z eqn:Z0; decide_num; [lia |].
  cbv zeta. rewrite Math_clamp', Math_min_Qmin. reflexivity.
Qed.

Lemma bonus_range (total : Z) :
  (5 <= total)%Z ->
  0 <= Qmin 10 (inject_Z total * 0.5) /\ Qmin 10 (inject_Z total * 0.5) <= 10.
Proof.
  intros T. assert (5 <= inject_Z total)
    by (change 5 with (inject_Z 5); rewrite <- Zle_Qle; exact T).
  destruct (Q.min_spec 10 (inject_Z total * 0.5)) as [[? ->] | [? ->]]; split; lra.
Qed.

(** X6: with counters [0 <= correctAttempts <= totalAttempts] and at least
    one attempt, [calculateMasteryLevel] is never below the accuracy in
    percent and at most 10 above it; it is exactly the accuracy in percent
    with fewer than 5 attempts or an accuracy below 0.8; it is 100 when
    every attempt was correct; and for the same number of attempts it does
    not decrease when more of them are correct. *)
Theorem calculateMasteryLevel_follows_accuracy (correctAttempts totalAttempts : Z) :
  (0 <= correctAttempts <= totalAttempts)%Z -> (0 < totalAttempts)%Z ->
  let accuracy := inject_Z correctAttempts / inject_Z totalAttempts in
  let r := calculateMasteryLevel correctAttempts totalAttempts in
  accuracy * 100 <= r /\ r <= accuracy * 100 + 10 /\
  ((totalAttempts < 5)%Z \/ accuracy < 0.8 -> r == accuracy * 100) /\
  (correctAttempts = totalAttempts -> r == 100) /\
  (forall correctAttempts' : Z,
      (correctAttempts <= correctAttempts' <= totalAttempts)%Z ->
      r <= calculateMasteryLevel correctAttempts' totalAttempts).
Proof.
  intros C T accuracy r. unfold r.
  rewrite (calculateMasteryLevel_unfold correctAttempts totalAttempts T).
  destruct (accuracy_range correctAttempts totalAttempts C T) as [A0 A1].
  fold accuracy in A0, A1 |- *.
  assert (F : forall a : Q, 0 <= a -> a <= 1 ->
            let v := Qmin 100 (Qmax 0
                       (if (5 <=? totalAttempts)%Z && Qle_bool 0.8 a
                        then a * 100 + Qmin 10 (inject_Z totalAttempts * 0.5)
                        else a * 100)) in
            a * 100 <= v /\ v <= a * 100 + 10 /\
            ((totalAttempts < 5)%Z \/ a < 0.8 -> v == a * 100) /\
            (a == 1 -> v == 100) /\
            forall a', a <= a' -> a' <= 1 ->
              v <= Qmin 100 (Qmax 0
                     (if (5 <=? totalAttempts)%Z && Qle_bool 0.8 a'
                      then a' * 100 + Qmin 10 (inject_Z totalAttempts * 0.5)
                      else a' * 100))).
  { intros a a0 a1 v. unfold v.
    destruct (5 <=? totalAttempts)%Z eqn:T5; decide_num; cbn [andb].
    - destruct (bonus_range totalAttempts T5) as [B0 B1].
      set (bonus := Qmin 10 (inject_Z totalAttempts * 0.5)) in *. clearbody bonus.
      assert (M : forall x, 0 <= x -> Qmin 100 (Qmax 0 x) == Qmin 100 x).
      { intros x X. rewrite (Q.max_r 0 x X). reflexivity. }
      repeat split.
      + destruct (Qle_bool 0.8 a); rewrite M by lra;
          destruct (Q.min_spec 100 (a * 100 + bonus)) as [[? E] | [? E]];
          destruct (Q.min_spec 100 (a * 100)) as [[? E'] | [? E']];
          try rewrite E; try rewrite E'; lra.
      + destruct (Qle_bool 0.8 a); rewrite M by lra;
          destruct (Q.min_spec 100 (a * 100 + bonus)) as [[? E] | [? E]];
          destruct (Q.min_spec 100 (a * 100)) as [[? E'] | [? E']];
          try rewrite E; try rewrite E'; lra.
      + intros [L | L]; [lia |].
        destruct (Qle_bool 0.8 a) eqn:A; decide_num; [exfalso; lra |].
        rewrite M by lra. apply Q.min_r. lra.
      + intros E1. destruct (Qle_bool 0.8 a) eqn:A; decide_num; [| exfalso; lra].
        rewrite M by lra. apply Q.min_l. lra.
      + intros a' L a1'.
        destruct (Qle_bool 0.8 a) eqn:A; destruct (Qle_bool 0.8 a') eqn:A';
          decide_num; try (exfalso; lra); rewrite !M by lra;
          apply Q.min_le_compat_l; lra.
    - assert (M : forall x, 0 <= x -> Qmin 100 (Qmax 0 x) == Qmin 100 x).
      { intros x X. rewrite (Q.max_r 0 x X). reflexivity. }
      repeat split.
      + rewrite M by lra. rewrite Q.min_r; lra.
      + rewrite M by lra. rewrite Q.min_r; lra.
      + intros _. rewrite M by lra. apply Q.min_r. lra.
      + intros E1. rewrite M by lra. rewrite E1. reflexivity.
      + intros a' L a1'. rewrite !M by lra. apply Q.min_le_compat_l. lra. }
  destruct (F accuracy A0 A1) as (F1 & F2 & F3 & F4 & F5).
  split; [exact F1 |]. split; [exact F2 |]. split; [exact F3 |]. split.
  - intros E. apply F4. unfold accuracy. rewrite E.
    apply Qmult_inv_r. intros Z0.
    apply (proj1 (inject_Z_injective totalAttempts 0)) in Z0. lia.
  - intros c' C'.
    rewrite (calculateMasteryLevel_unfold c' totalAttempts T).
    apply F5.
    + apply accuracy_mono; [lia | exact T].
    + apply (accuracy_range c' totalAttempts); [lia | exact T].
Qed.

(** the theorem above at 9 correct answers out of 10 *)
Lemma calculateMasteryLevel_follows_accuracy_witness :
  ((0 <= 9 <= 10)%Z /\ (0 < 10)%Z) /\
  inject_Z 9 / inject_Z 10 * 100 <= calculateMasteryLevel 9 10 /\
  calculateMasteryLevel 9 10 <= inject_Z 9 / inject_Z 10 * 100 + 10.
Proof.
  assert (C : (0 <= 9 <= 10)%Z) by lia.
  assert (T : (0 < 10)%Z) by lia.
  split; [split; assumption |].
  pose proof (calculateMasteryLevel_follows_accuracy 9 10 C T) as (A & B & _).
  split; [exact A | exact B].
Defined.

(** ** The review schedule *)

Lemma ease_change_factored (performance : Q) :
  0.1 - (5 - performance * 5) * (0.08 + (5 - performance * 5) * 0.02) ==
  0.5 * (2 - performance) * (performance - 0.8).
Proof. ring. Qed.

Lemma ease_change_sign (performance : Q) :
  0 <= performance -> performance <= 1 ->
  - 0.8 <= 0.5 * (2 - performance) * (performance - 0.8) /\
  0.5 * (2 - performance) * (performance - 0.8) <= 0.1 /\
  (0.8 <= performance -> 0 <= 0.5 * (2 - performance) * (performance - 0.8)) /\
  (performance < 0.8 -> 0.5 * (2 - performance) * (performance - 0.8) < 0).
Proof.
  intros P0 P1.
  assert (A : 0 <= performance * (2.8 - performance))
    by (apply Qmult_le_0_compat; lra).
  assert (B : 0 <= (1 - performance) * (1.8 - performance))
    by (apply Qmult_le_0_compat; lra).
  assert (EA : 0.5 * (2 - performance) * (performance - 0.8) ==
               0.5 * (performance * (2.8 - performance)) - 0.8) by ring.
  assert (EB : 0.5 * (2 - performance) * (performance - 0.8) ==
               0.1 - 0.5 * ((1 - performance) * (1.8 - performance))) by ring.
  repeat split.
  - rewrite EA. lra.
  - rewrite EB. lra.
  - intros H.
    assert (0 <= (2 - performance) * (performance - 0.8))
      by (apply Qmult_le_0_compat; lra).
    rewrite <- Qmult_assoc. lra.
  - intros H.
    assert (0 < (2 - performance) * (0.8 - performance))
      by (apply Qmult_lt_0_compat; lra).
    assert (EC : 0.5 * (2 - performance) * (performance - 0.8) ==
                 - (0.5 * ((2 - performance) * (0.8 - performance)))) by ring.
    rewrite EC. lra.
Qed.

(** X7: for a performance in [0,1] and an ease factor of at least 1.3, the
    new ease factor is at least 1.3, at most 0.1 above and at most 0.8
    below the old one; it does not fall when the performance is at least
    0.8, and it does not rise when the performance is below 0.8, so a
    review passed with a performance in [0.6, 0.8) adds a repetition while
    the ease factor falls, strictly when it was above 1.3. *)
Theorem ease_factor_follows_performance
    (currentInterval repetitions easeFactor performance : Q) :
  1.3 <= easeFactor -> 0 <= performance -> performance <= 1 ->
  let r := calculateSpacedRepetitionInterval
             currentInterval repetitions easeFactor performance in
  1.3 <= newEaseFactor r /\
  easeFactor - 0.8 <= newEaseFactor r /\ newEaseFactor r <= easeFactor + 0.1 /\
  (0.8 <= performance -> easeFactor <= newEaseFactor r) /\
  (performance < 0.8 -> newEaseFactor r <= easeFactor) /\
  (0.6 <= performance -> performance < 0.8 -> 1.3 < easeFactor ->
     newRepetitions r == repetitions + 1 /\ newEaseFactor r < easeFactor).
Proof.
  intros E P0 P1 r.
  assert (N : newEaseFactor r ==
              Qmax 1.3 (easeFactor + 0.5 * (2 - performance) * (performance - 0.8))).
  { unfold r. rewrite newEaseFactor_spec. unfold spec_easeFactor.
    rewrite ease_change_factored. reflexivity. }
  destruct (ease_change_sign performance P0 P1) as (D0 & D1 & DP & DN).
  set (change := 0.5 * (2 - performance) * (performance - 0.8)) in *.
  clearbody change.
  assert (R : 0.6 <= performance -> newRepetitions r == repetitions + 1).
  { intros P. unfold r, calculateSpacedRepetitionInterval.
    apply Qle_bool_iff in P. rewrite P. reflexivity. }
  destruct (Q.max_spec 1.3 (easeFactor + change)) as [[L M] | [L M]];
    rewrite M in N; rewrite N; repeat split; intros;
    try (apply R; assumption);
    try (pose proof (DP ltac:(assumption)));
    try (pose proof (DN ltac:(assumption))); lra.
Qed.

(** the theorem above for a review passed with performance 0.7 *)
Lemma ease_factor_follows_performance_witness :
  (1.3 <= 2.5 /\ 0 <= 0.7 /\ 0.7 <= 1 /\ 0.6 <= 0.7 /\ 0.7 < 0.8 /\ 1.3 < 2.5) /\
  newRepetitions (calculateSpacedRepetitionInterval 6 2 2.5 0.7) == 2 + 1 /\
  newEaseFactor (calculateSpacedRepetitionInterval 6 2 2.5 0.7) < 2.5.
Proof.
  assert (A : 1.3 <= 2.5) by (vm_compute; discriminate).
  assert (B : 0 <= 0.7) by (vm_compute; discriminate).
  assert (C : 0.7 <= 1) by (vm_compute; discriminate).
  assert (D : 0.6 <= 0.7) by (vm_compute; discriminate).
  assert (E : 0.7 < 0.8) by (vm_compute; reflexivity).
  assert (F : 1.3 < 2.5) by (vm_compute; reflexivity).
  split; [repeat split; assumption |].
  exact (proj2 (proj2 (proj2 (proj2 (proj2
           (ease_factor_follows_performance 6 2 2.5 0.7 A B C))))) D E F).
Defined.

Lemma Math_round_ge (n : Z) (x : Q) :
  inject_Z n <= x + 0.5 -> inject_Z n <= Math_round x.
Proof.
  intros L. unfold Math_round. rewrite <- Zle_Qle.
  rewrite <- (Qfloor_Z n). apply Qfloor_resp_le. exact L.
Qed.

Lemma newEaseFactor_floor (currentInterval repetitions easeFactor performance : Q) :
  1.3 <= newEaseFactor
           (calculateSpacedRepetitionInterval
              currentInterval repetitions easeFactor performance).
Proof.
  rewrite newEaseFactor_spec. unfold spec_easeFactor. apply Q.le_max_l.
Qed.

(** X8: reviews compose into the schedule 1, 6, at least 8 days: after a
    failed review the next passed one gives interval 1 and repetition 1;
    two passed reviews of an item without repetitions give the intervals 1
    and 6 and repetition 2, and a third one gives at least 8 days; and a
    passed review of an item with two or more repetitions, a whole interval
    of at least 2 days and an ease factor of at least 1.3 gives a strictly
    longer interval. *)
Theorem review_schedule :
  (forall currentInterval repetitions easeFactor p1 p2 : Q,
      p1 < 0.6 -> 0.6 <= p2 ->
      let r1 := calculateSpacedRepetitionInterval
                  currentInterval repetitions easeFactor p1 in
      let r2 := calculateSpacedRepetitionInterval
                  (newInterval r1) (newRepetitions r1) (newEaseFactor r1) p2 in
      newInterval r2 == 1 /\ newRepetitions r2 == 1) /\
  (forall currentInterval repetitions easeFactor p1 p2 p3 : Q,
      repetitions == 0 -> 0.6 <= p1 -> 0.6 <= p2 -> 0.6 <= p3 ->
      let r1 := calculateSpacedRepetitionInterval
                  currentInterval repetitions easeFactor p1 in
      let r2 := calculateSpacedRepetitionInterval
                  (newInterval r1) (newRepetitions r1) (newEaseFactor r1) p2 in
      let r3 := calculateSpacedRepetitionInterval
                  (newInterval r2) (newRepetitions r2) (newEaseFactor r2) p3 in
      newInterval r1 == 1 /\ newInterval r2 == 6 /\ newRepetitions r2 == 2 /\
      8 <= newInterval r3 /\ newRepetitions r3 == 3) /\
  (forall (days : Z) (repetitions easeFactor performance : Q),
      (2 <= days)%Z -> ~ repetitions == 0 -> ~ repetitions == 1 ->
      1.3 <= easeFactor -> 0.6 <= performance ->
      inject_Z days <
      newInterval (calculateSpacedRepetitionInterval
                     (inject_Z days) repetitions easeFactor performance)).
Proof.
  split; [| split].
  - intros currentInterval repetitions easeFactor p1 p2 F P r1 r2.
    destruct (interval_on_fail currentInterval repetitions easeFactor p1 F) as (R1 & I1).
    fold r1 in R1, I1.
    destruct (interval_on_pass (newInterval r1) (newRepetitions r1)
                (newEaseFactor r1) p2 P) as (R2 & I0 & _).
    fold r2 in R2, I0. split.
    + apply I0. rewrite R1. reflexivity.
    + rewrite R2, R1. reflexivity.
  - intros currentInterval repetitions easeFactor p1 p2 p3 Z0 P1 P2 P3 r1 r2 r3.
    destruct (interval_on_pass currentInterval repetitions easeFactor p1 P1)
      as (R1 & I1 & _).
    fold r1 in R1, I1.
    destruct (interval_on_pass (newInterval r1) (newRepetitions r1)
                (newEaseFactor r1) p2 P2) as (R2 & _ & I2 & _).
    fold r2 in R2, I2.
    destruct (interval_on_pass (newInterval r2) (newRepetitions r2)
                (newEaseFactor r2) p3 P3) as (R3 & _ & _ & I3).
    fold r3 in R3, I3.
    assert (E1 : newRepetitions r1 == 1) by (rewrite R1, Z0; reflexivity).
    assert (E2 : newRepetitions r2 == 2) by (rewrite R2, E1; reflexivity).
    assert (J2 : newInterval r2 == 6) by (apply I2; exact E1).
    split; [apply I1; exact Z0 |]. split; [exact J2 |]. split; [exact E2 |]. split.
    + rewrite I3 by (rewrite E2; intros X; vm_compute in X; discriminate X).
      change 8 with (inject_Z 8). apply Math_round_ge.
      pose proof (newEaseFactor_floor (newInterval r1) (newRepetitions r1)
                    (newEaseFactor r1) p2) as EF.
      fold r2 in EF. rewrite J2. change (inject_Z 8) with 8. lra.
    + rewrite R3, E2. reflexivity.
  - intros days repetitions easeFactor performance D N0 N1 E P.
    destruct (interval_on_pass (inject_Z days) repetitions easeFactor performance P)
      as (_ & _ & _ & I).
    rewrite (I N0 N1).
    apply Qlt_le_trans with (inject_Z (days + 1)).
    + rewrite <- Zlt_Qlt. lia.
    + apply Math_round_ge. rewrite inject_Z_plus. change (inject_Z 1) with 1.
      assert (2 <= inject_Z days)
        by (change 2 with (inject_Z 2); rewrite <- Zle_Qle; exact D).
      nra.
Qed.

(** the theorem above: a fail, then a pass; and 6 days at ease factor 2.5 *)
Lemma review_schedule_witness :
  (0.4 < 0.6 /\ 0.6 <= 0.9) /\
  newInterval
    (calculateSpacedRepetitionInterval
       (newInterval (calculateSpacedRepetitionInterval 15 3 2.5 0.4))
       (newRepetitions (calculateSpacedRepetitionInterval 15 3 2.5 0.4))
       (newEaseFactor (calculateSpacedRepetitionInterval 15 3 2.5 0.4)) 0.9) == 1.
Proof.
  assert (F : 0.4 < 0.6) by (vm_compute; reflexivity).
  assert (P : 0.6 <= 0.9) by (vm_compute; discriminate).
  split; [split; assumption |].
  exact (proj1 (proj1 review_schedule 15 3 2.5 0.4 0.9 F P)).
Defined.

(** ** What raises and what lowers a priority *)

Lemma clamp_shift (lo hi x d : Q) :
  lo <= hi -> 0 <= d -> clamp lo hi x - d <= clamp lo hi (x - d).
Proof.
  intros L D. unfold clamp.
  destruct (Q.max_spec lo (Qmin hi x)) as [[? ->] | [? ->]];
    destruct (Q.max_spec lo (Qmin hi (x - d))) as [[? ->] | [? ->]];
    destruct (Q.min_spec hi x) as [[? E] | [? E]];
    destruct (Q.min_spec hi (x - d)) as [[? F] | [? F]];
    try rewrite E in *; try rewrite F in *; lra.
Qed.

Lemma spec_days_mono (now now' : Z) (p : UserProgress) :
  (now <= now')%Z -> (spec_days now p <= spec_days now' p)%Z.
Proof.
  intros L. unfold spec_days. apply Z.div_le_mono; lia.
Qed.

(** X9: the priority of a question is not raised by a recent attempt,
    which costs at most 30 points; it is not raised by a higher mastery of
    the topic; it is not lowered by the passing of time; and of questions
    that differ in difficulty alone the harder one never has the lower
    priority. *)
Theorem priority_is_monotone :
  (forall now question progress,
      calculateQuestionPriority now question progress true
        <= calculateQuestionPriority now question progress false /\
      calculateQuestionPriority now question progress false - 30
        <= calculateQuestionPriority now question progress true) /\
  (forall now question p mastery recent,
      masteryLevel p <= mastery ->
      calculateQuestionPriority now question (Some (with_mastery p mastery)) recent
        <= calculateQuestionPriority now question (Some p) recent) /\
  (forall now now' question progress recent,
      (now <= now')%Z ->
      calculateQuestionPriority now question progress recent
        <= calculateQuestionPriority now' question progress recent) /\
  (forall now id tp text answer progress recent,
      calculateQuestionPriority now (mkQuestion id tp text answer "easy") progress recent
        <= calculateQuestionPriority now (mkQuestion id tp text answer "medium")
             progress recent /\
      calculateQuestionPriority now (mkQuestion id tp text answer "medium") progress recent
        <= calculateQuestionPriority now (mkQuestion id tp text answer "hard")
             progress recent).
Proof.
  split; [| split; [| split]].
  - intros now question progress.
    rewrite !calculateQuestionPriority_spec. unfold spec_priority. cbn [spec_recentPenalty].
    set (a := 50 + spec_masteryFactor progress + spec_recencyFactor now progress
              + spec_difficultyFactor (q_difficulty question)).
    set (s := spec_successFactor progress). split.
    + apply clamp_mono. lra.
    + eapply Qle_trans; [apply (clamp_shift 0 100 (a - 0 + s) 30); lra |].
      apply clamp_mono. lra.
  - intros now question p mastery recent L.
    rewrite !calculateQuestionPriority_spec. unfold spec_priority.
    apply clamp_mono.
    unfold spec_masteryFactor, spec_recencyFactor, spec_successFactor, with_mastery,
      spec_days.
    cbn [masteryLevel lastPracticed totalAttempts correctAttempts].
    set (r := Qmin _ 20).
    set (s := if Z_lt_dec 0 (totalAttempts p) then _ else _).
    lra.
  - intros now now' question progress recent L.
    rewrite !calculateQuestionPriority_spec. unfold spec_priority.
    apply clamp_mono.
    assert (R : spec_recencyFactor now progress <= spec_recencyFactor now' progress).
    { unfold spec_recencyFactor. destruct progress as [p |]; [| lra].
      apply Q.min_le_compat_r.
      pose proof (spec_days_mono now now' p L) as D. rewrite Zle_Qle in D. lra. }
    lra.
  - intros now id tp text answer progress recent.
    rewrite !calculateQuestionPriority_spec. unfold spec_priority.
    cbn [q_difficulty].
    change (spec_difficultyFactor "easy") with 5.
    change (spec_difficultyFactor "medium") with 10.
    change (spec_difficultyFactor "hard") with 15.
    split; apply clamp_mono; lra.
Qed.

(** the theorem above: raising the JavaScript mastery from 85 to 90 *)
Lemma priority_is_monotone_witness :
  85 <= 90 /\
  calculateQuestionPriority exampleNow question1
    (Some (with_mastery
             (mkUserProgress "progress-1" "user-1" "JavaScript" 85
                (exampleNow - 8 * 86400000) 10 7) 90)) false
  <= calculateQuestionPriority exampleNow question1
       (Some (mkUserProgress "progress-1" "user-1" "JavaScript" 85
                (exampleNow - 8 * 86400000) 10 7)) false.
Proof.
  assert (L : 85 <= 90) by (vm_compute; discriminate).
  split; [exact L |].
  exact (proj1 (proj2 priority_is_monotone) exampleNow question1
           (mkUserProgress "progress-1" "user-1" "JavaScript" 85
              (exampleNow - 8 * 86400000) 10 7) 90 false L).
Defined.

(** ** Sizes and members of the ranked lists *)

Lemma slice0_length {A : Type} (count : Z) (arr : list A) :
  Z.of_nat (List.length (slice0 count arr)) =
  (if (count <? 0)%Z then Z.max (Z.of_nat (List.length arr) + count) 0
   else Z.min count (Z.of_nat (List.length arr))).
Proof.
  unfold slice0. rewrite length_firstn.
  destruct (count <? 0)%Z eqn:N; decide_num; lia.
Qed.

Lemma slice0_incl {A : Type} (count : Z) (arr : list A) (x : A) :
  In x (slice0 count arr) -> In x arr.
Proof.
  unfold slice0. intros I.
  rewrite <- (firstn_skipn (Z.to_nat
    (if (count <? 0)%Z then Z.max (Z.of_nat (List.length arr) + count) 0
     else Z.min count (Z.of_nat (List.length arr)))) arr).
  apply in_or_app. left. exact I.
Qed.

Lemma NoDup_firstn {A : Type} (n : nat) (l : list A) : NoDup l -> NoDup (firstn n l).
Proof.
  intros N. rewrite <- (firstn_skipn n l) in N. exact (NoDup_app_remove_r _ _ N).
Qed.

Lemma slice0_all {A : Type} (count : Z) (arr : list A) :
  (Z.of_nat (List.length arr) <= count)%Z -> slice0 count arr = arr.
Proof.
  intros L. unfold slice0.
  destruct (count <? 0)%Z eqn:N; decide_num; [lia |].
  apply firstn_all2. lia.
Qed.

Lemma ranked_questions (db : Db) (now : Z) (uid : string) :
  Permutation
    (map qp_question (Array_sort comparePriority (questionPriorities db now uid)))
    (questions db).
Proof.
  rewrite <- (questionPriorities_questions db now uid).
  apply Permutation_map. apply Array_sort_perm.
Qed.

(** X10: [getNextQuestions] returns [min(count, n)] of the [n] questions of
    the bank for a count that is not negative, and [max(n + count, 0)] for a
    negative one (the end of the ranking is cut off); every returned
    question is one of the bank; it returns no question twice when the bank
    holds none twice; and with a count of at least [n] it returns the whole
    bank, rearranged. *)
Theorem getNextQuestions_size (db : Db) (now : Z) (uid : string) (count : Z) :
  let n := Z.of_nat (List.length (questions db)) in
  let result := getNextQuestions db now uid count in
  Z.of_nat (List.length result) =
    (if (count <? 0)%Z then Z.max (n + count) 0 else Z.min count n) /\
  (forall q, In q result -> In q (questions db)) /\
  (NoDup (questions db) -> NoDup result) /\
  ((n <= count)%Z -> Permutation result (questions db)).
Proof.
  intros n result. unfold result, getNextQuestions.
  pose proof (ranked_questions db now uid) as P.
  set (ranked := Array_sort comparePriority (questionPriorities db now uid)) in *.
  assert (Len : List.length ranked = List.length (questions db)).
  { rewrite <- (Permutation_length P). symmetry. apply length_map. }
  split; [| split; [| split]].
  - rewrite length_map, slice0_length, Len. reflexivity.
  - intros q I. apply in_map_iff in I. destruct I as (e & <- & I).
    apply slice0_incl in I. apply (Permutation_in _ P). apply in_map. exact I.
  - intros N. unfold slice0. rewrite <- firstn_map. apply NoDup_firstn.
    apply (Permutation_NoDup (Permutation_sym P)). exact N.
  - intros L. rewrite slice0_all; [exact P |]. rewrite Len. exact L.
Qed.

(** the theorem above on the small database *)
Lemma getNextQuestions_size_witness :
  NoDup (questions exampleDb) /\
  NoDup (getNextQuestions exampleDb exampleNow "user-1" 2).
Proof.
  assert (N : NoDup (questions exampleDb)).
  { apply (NoDup_map_inv q_id). exact exampleDb_unique_ids. }
  split; [exact N |].
  exact (proj1 (proj2 (proj2
           (getNextQuestions_size exampleDb exampleNow "user-1" 2))) N).
Defined.

Lemma sort_descending {A : Type} (key : A -> Q) (l : list A) :
  StronglySorted (fun a b => key b <= key a)
                 (Array_sort (fun a b => key b - key a) l).
Proof.
  apply (Array_sort_sorted (fun a b => key b - key a) (fun a b => key b <= key a)).
  - intros x y z H1 H2. lra.
  - intros x y H. lra.
  - intros x y H. lra.
Qed.

Lemma StronglySorted_firstn {A : Type} (R : A -> A -> Prop) (n : nat) (l : list A) :
  StronglySorted R l -> StronglySorted R (firstn n l).
Proof.
  revert n. induction l as [| x l IH]; intros n S.
  - rewrite firstn_nil. constructor.
  - destruct n as [| n]; cbn; [constructor |].
    inversion S as [| ? ? S' F]; subst. constructor.
    + apply IH. exact S'.
    + apply Forall_forall. intros y I. rewrite Forall_forall in F. apply F.
      rewrite <- (firstn_skipn n l). apply in_or_app. left. exact I.
Qed.

Lemma pushRecommendation_fold (now : Z) (rows : list UserProgress)
    (qs : list Question) (acc : list LearningRecommendation) :
  fold_left (pushRecommendation now rows) qs acc =
  acc ++ flat_map (pushRecommendation now rows []) qs.
Proof.
  revert acc. induction qs as [| q qs IH]; intros acc; cbn [fold_left flat_map].
  - symmetry. apply app_nil_r.
  - rewrite IH. unfold pushRecommendation at 1 3. cbn [app].
    rewrite <- app_assoc. reflexivity.
Qed.

Lemma progress_of_topic_findUnique (db : Db) (uid tp : string) :
  progress_of_topic (userProgress_findMany db uid) tp =
  userProgress_findUnique db uid tp.
Proof.
  unfold progress_of_topic, userProgress_findMany, userProgress_findUnique, has_key.
  induction (userProgress db) as [| p rows IH]; cbn; [reflexivity |].
  destruct (String.eqb (userId p) uid); cbn.
  - destruct (String.eqb (topic p) tp); [reflexivity | exact IH].
  - exact IH.
Qed.

Lemma calculateQuestionPriority_in_range (now : Z) (question : Question)
    (progress : option UserProgress) (recent : bool) :
  in_range 0 100 (calculateQuestionPriority now question progress recent).
Proof.
  unfold calculateQuestionPriority. cbv zeta.
  rewrite (Math_clamp 0 100). apply clamp_in_range. lra.
Qed.

Lemma recommendation_of (db : Db) (now : Z) (uid : string) (r : LearningRecommendation) :
  In r (flat_map (pushRecommendation now (userProgress_findMany db uid) [])
                 (questions db)) <->
  exists q, In q (questions db) /\
    r = mkLearningRecommendation (q_id q)
          (calculateQuestionPriority now q
             (userProgress_findUnique db uid (q_topic q)) false)
          (match userProgress_findUnique db uid (q_topic q) with
           | None => "New topic - start learning"
           | Some p =>
               if Qlt_bool (masteryLevel p) 30 then "Low mastery - needs practice"
               else if Qlt_bool (masteryLevel p) 70
                    then "Moderate mastery - continue practicing"
                    else "High mastery - maintain knowledge"
           end%string)
          (q_topic q).
Proof.
  rewrite in_flat_map. unfold pushRecommendation. cbn [app].
  split; intros (q & I & H); exists q; (split; [exact I |]).
  - destruct H as [<- | []]. rewrite progress_of_topic_findUnique. reflexivity.
  - left. rewrite progress_of_topic_findUnique. symmetry. exact H.
Qed.

(** X11: [getLearningRecommendations] returns [min(20, n)] recommendations
    for a bank of [n] questions, in descending order of priority; each
    one carries the id and topic of a question of the bank and that
    question's priority without the recent-attempt penalty, a value in
    [0,100]; its reason is "New topic - start learning" exactly when the
    learner has no progress row for the topic; and with at most 20
    questions every question of the bank is recommended. *)
Theorem getLearningRecommendations_top20 (db : Db) (now : Z) (uid : string) :
  let result := getLearningRecommendations db now uid in
  List.length result = Nat.min 20 (List.length (questions db)) /\
  StronglySorted (fun a b => lr_priority b <= lr_priority a) result /\
  (forall r, In r result ->
     exists q, In q (questions db) /\
       lr_questionId r = q_id q /\ lr_topic r = q_topic q /\
       lr_priority r =
         calculateQuestionPriority now q
           (userProgress_findUnique db uid (q_topic q)) false /\
       in_range 0 100 (lr_priority r) /\
       (lr_reason r = "New topic - start learning"%string <->
        userProgress_findUnique db uid (q_topic q) = None)) /\
  ((List.length (questions db) <= 20)%nat ->
   forall q, In q (questions db) -> exists r, In r result /\ lr_questionId r = q_id q).
Proof.
  intros result. unfold result, getLearningRecommendations. cbv zeta.
  rewrite pushRecommendation_fold. cbn [app].
  set (recs := flat_map _ (questions db)).
  assert (Len : List.length recs = List.length (questions db)).
  { unfold recs. induction (questions db) as [| q qs IH]; cbn; [reflexivity |].
    rewrite IH. reflexivity. }
  pose proof (Array_sort_perm (fun a b => lr_priority b - lr_priority a) recs) as P.
  set (sorted := Array_sort _ recs) in *.
  assert (S : slice0 20 sorted = firstn 20 sorted) by (apply slice0_firstn; lia).
  rewrite S. split; [| split; [| split]].
  - rewrite length_firstn, (Permutation_length P), Len. reflexivity.
  - apply StronglySorted_firstn. apply (sort_descending lr_priority).
  - intros r I.
    assert (I' : In r recs).
    { apply (Permutation_in _ P). rewrite <- (firstn_skipn 20 sorted).
      apply in_or_app. left. exact I. }
    apply recommendation_of in I'. destruct I' as (q & Iq & ->).
    exists q. cbn.
    split; [exact Iq |]. split; [reflexivity |]. split; [reflexivity |].
    split; [reflexivity |].
    split; [apply calculateQuestionPriority_in_range |]. split.
    + destruct (userProgress_findUnique db uid (q_topic q)) as [p |]; [| reflexivity].
      destruct (Qlt_bool (masteryLevel p) 30); [discriminate |].
      destruct (Qlt_bool (masteryLevel p) 70); discriminate.
    + intros ->. reflexivity.
  - intros L q Iq.
    exists (mkLearningRecommendation (q_id q)
              (calculateQuestionPriority now q
                 (userProgress_findUnique db uid (q_topic q)) false)
              (match userProgress_findUnique db uid (q_topic q) with
               | None => "New topic - start learning"
               | Some p =>
                   if Qlt_bool (masteryLevel p) 30 then "Low mastery - needs practice"
                   else if Qlt_bool (masteryLevel p) 70
                        then "Moderate mastery - continue practicing"
                        else "High mastery - maintain knowledge"
               end%string)
              (q_topic q)).
    split; [| reflexivity].
    rewrite firstn_all2 by (rewrite (Permutation_length P), Len; exact L).
    apply (Permutation_in _ (Permutation_sym P)).
    apply recommendation_of. exists q. split; [exact Iq | reflexivity].
Qed.

(** the theorem above on the small database *)
Lemma getLearningRecommendations_top20_witness :
  (List.length (questions exampleDb) <= 20)%nat /\
  exists r, In r (getLearningRecommendations exampleDb exampleNow "user-1") /\
            lr_questionId r = "question-3"%string.
Proof.
  assert (L : (List.length (questions exampleDb) <= 20)%nat) by (cbn; lia).
  split; [exact L |].
  apply (proj2 (proj2 (proj2
           (getLearningRecommendations_top20 exampleDb exampleNow "user-1"))) L
           question3).
  cbn. auto.
Defined.

Lemma recommendTopic_topic (now : Z) (rows : list UserProgress) (topicData : string * Z) :
  tr_topic (recommendTopic now rows topicData) = fst topicData.
Proof.
  unfold recommendTopic.
  destruct (progress_of_topic rows (fst topicData)) as [p |]; [| reflexivity].
  destruct (Qlt_bool (masteryLevel p) 30); [reflexivity |].
  destruct (Qlt_bool (masteryLevel p) 60); [reflexivity |].
  destruct (Qlt_bool (masteryLevel p) 80); reflexivity.
Qed.

Lemma groupBy_topics (db : Db) :
  map fst (question_groupBy_topic db) = nodup string_dec (map q_topic (questions db)).
Proof.
  unfold question_groupBy_topic. rewrite map_map. cbn. apply map_id.
Qed.

Lemma daysSinceLastPractice_nonneg (now : Z) (p : UserProgress) :
  (lastPracticed p <= now)%Z -> 0 <= daysSinceLastPractice now p.
Proof.
  intros L. rewrite daysSinceLastPractice_days. change 0 with (inject_Z 0).
  rewrite <- Zle_Qle. unfold spec_days. apply Z.div_pos; lia.
Qed.

Lemma recommendTopic_priority (now : Z) (rows : list UserProgress)
    (topicData : string * Z) :
  let r := recommendTopic now rows topicData in
  tr_priority r <= 100 /\
  (progress_of_topic rows (fst topicData) = None ->
     tr_priority r == 80 /\ tr_reason r = "New topic - start learning"%string) /\
  (forall p, progress_of_topic rows (fst topicData) = Some p ->
     (lastPracticed p <= now)%Z ->
     20 <= tr_priority r /\ (masteryLevel p < 30 -> 90 <= tr_priority r)).
Proof.
  unfold recommendTopic.
  destruct (progress_of_topic rows (fst topicData)) as [p |].
  - assert (B : forall base : Q, 20 <= base -> base <= 90 ->
              Math_min 100 (base + Math_min (daysSinceLastPractice now p * 2) 20) <= 100 /\
              ((lastPracticed p <= now)%Z ->
               base <= Math_min 100 (base + Math_min (daysSinceLastPractice now p * 2) 20))).
    { intros base B0 B1. rewrite !Math_min_Qmin. split.
      - apply Q.le_min_l.
      - intros L. pose proof (daysSinceLastPractice_nonneg now p L) as D.
        destruct (Q.min_spec (daysSinceLastPractice now p * 2) 20) as [[? E] | [? E]];
          rewrite E; apply Q.min_glb; lra. }
    destruct (Qlt_bool (masteryLevel p) 30) eqn:M30;
      [| destruct (Qlt_bool (masteryLevel p) 60) eqn:M60;
         [| destruct (Qlt_bool (masteryLevel p) 80) eqn:M80]];
      decide_num; cbn [tr_priority tr_reason].
    + destruct (B 90 ltac:(lra) ltac:(lra)) as [U L].
      split; [exact U |]. split; [discriminate |].
      intros p' E Lp. inversion E; subst p'. specialize (L Lp). split; intros; lra.
    + destruct (B 70 ltac:(lra) ltac:(lra)) as [U L].
      split; [exact U |]. split; [discriminate |].
      intros p' E Lp. inversion E; subst p'. specialize (L Lp). split; intros; lra.
    + destruct (B 40 ltac:(lra) ltac:(lra)) as [U L].
      split; [exact U |]. split; [discriminate |].
      intros p' E Lp. inversion E; subst p'. specialize (L Lp). split; intros; lra.
    + destruct (B 20 ltac:(lra) ltac:(lra)) as [U L].
      split; [exact U |]. split; [discriminate |].
      intros p' E Lp. inversion E; subst p'. specialize (L Lp). split; intros; lra.
  - cbn [tr_priority tr_reason]. split; [| split].
    + vm_compute. discriminate.
    + intros _. split; reflexivity.
    + discriminate.
Qed.

(** X12: [getTopicRecommendations] returns one recommendation for each
    topic that occurs in the bank and none else, in descending order of
    priority; a priority is at most 100; a topic without progress row of
    the learner gets priority 80 and the reason "New topic - start
    learning"; a topic with a row last practised not after now gets at
    least 20, and at least 90 when its mastery is below 30. *)
Theorem getTopicRecommendations_per_topic (db : Db) (now : Z) (uid : string) :
  let result := getTopicRecommendations db now uid in
  NoDup (map tr_topic result) /\
  (forall tp, In tp (map tr_topic result) <->
              exists q, In q (questions db) /\ q_topic q = tp) /\
  StronglySorted (fun a b => tr_priority b <= tr_priority a) result /\
  (forall r, In r result ->
     tr_priority r <= 100 /\
     (userProgress_findUnique db uid (tr_topic r) = None ->
        tr_priority r == 80 /\ tr_reason r = "New topic - start learning"%string) /\
     (forall p, userProgress_findUnique db uid (tr_topic r) = Some p ->
        (lastPracticed p <= now)%Z ->
        20 <= tr_priority r /\ (masteryLevel p < 30 -> 90 <= tr_priority r))).
Proof.
  intros result. unfold result, getTopicRecommendations. cbv zeta.
  set (recs := map (recommendTopic now (userProgress_findMany db uid))
                   (question_groupBy_topic db)).
  pose proof (Array_sort_perm (fun a b => tr_priority b - tr_priority a) recs) as P.
  set (sorted := Array_sort _ recs) in *.
  assert (T : map tr_topic recs = nodup string_dec (map q_topic (questions db))).
  { unfold recs. rewrite map_map, <- groupBy_topics.
    apply map_ext. intros td. apply recommendTopic_topic. }
  assert (PT : Permutation (map tr_topic sorted)
                 (nodup string_dec (map q_topic (questions db)))).
  { rewrite <- T. apply Permutation_map. exact P. }
  split; [| split; [| split]].
  - apply (Permutation_NoDup (Permutation_sym PT)). apply NoDup_nodup.
  - intros tp. split.
    + intros I. apply (Permutation_in _ PT) in I. apply nodup_In in I.
      apply in_map_iff in I. destruct I as (q & E & I). exists q. auto.
    + intros (q & I & E). apply (Permutation_in _ (Permutation_sym PT)).
      apply nodup_In. apply in_map_iff. exists q. auto.
  - apply (sort_descending tr_priority).
  - intros r I. apply (Permutation_in _ P) in I. unfold recs in I.
    apply in_map_iff in I. destruct I as (td & <- & _).
    rewrite recommendTopic_topic, <- progress_of_topic_findUnique.
    apply recommendTopic_priority.
Qed.

Lemma StronglySorted_impl {A : Type} (R S : A -> A -> Prop) (l : list A) :
  (forall x y, R x y -> S x y) -> StronglySorted R l -> StronglySorted S l.
Proof.
  intros H. induction 1 as [| x l _ IH F]; constructor.
  - exact IH.
  - apply Forall_forall. intros y I. rewrite Forall_forall in F. apply H. apply F. exact I.
Qed.

Lemma findMany_topics_unique (db : Db) (uid : string) :
  keys_unique db -> NoDup (map topic (userProgress_findMany db uid)).
Proof.
  unfold keys_unique, userProgress_findMany.
  induction (userProgress db) as [| p rows IH]; cbn; intros N; [constructor |].
  inversion N as [| ? ? Np Nrows]; subst.
  destruct (String.eqb (userId p) uid) eqn:U; [| apply IH; exact Nrows].
  cbn. constructor; [| apply IH; exact Nrows].
  intros I. apply Np. apply in_map_iff in I. destruct I as (p' & T & I).
  apply filter_In in I. destruct I as (I & U'). decide_num.
  apply in_map_iff. exists p'. split; [| exact I].
  unfold progress_key. congruence.
Qed.

(** X13: [getUserProgress] returns exactly the progress rows of the
    learner, rearranged so that no row stands before one practised later;
    when the pairs (userId, topic) are unique in the table, no topic occurs
    twice in the result. *)
Theorem getUserProgress_latest_first (db : Db) (uid : string) :
  let result := getUserProgress db uid in
  Permutation result (userProgress_findMany db uid) /\
  (forall p, In p result <-> In p (userProgress db) /\ userId p = uid) /\
  StronglySorted (fun a b => (lastPracticed b <= lastPracticed a)%Z) result /\
  (keys_unique db -> NoDup (map topic result)).
Proof.
  intros result. unfold result, getUserProgress.
  pose proof (Array_sort_perm
                (fun a b => inject_Z (lastPracticed b) - inject_Z (lastPracticed a))
                (userProgress_findMany db uid)) as P.
  split; [exact P |]. split; [| split].
  - intros p. split.
    + intros I. apply (Permutation_in _ P) in I.
      unfold userProgress_findMany in I. apply filter_In in I.
      destruct I as (I & U). decide_num. auto.
    + intros (I & U). apply (Permutation_in _ (Permutation_sym P)).
      unfold userProgress_findMany. apply filter_In. split; [exact I |].
      apply String.eqb_eq. exact U.
  - apply (StronglySorted_impl
             (fun a b => inject_Z (lastPracticed b) <= inject_Z (lastPracticed a))).
    + intros x y H. rewrite Zle_Qle. exact H.
    + apply (sort_descending (fun p => inject_Z (lastPracticed p))).
  - intros U. apply (Permutation_NoDup (Permutation_map topic (Permutation_sym P))).
    apply findMany_topics_unique. exact U.
Qed.

(** the theorem above on the small database *)
Lemma getUserProgress_latest_first_witness :
  keys_unique exampleDb /\ NoDup (map topic (getUserProgress exampleDb "user-1")).
Proof.
  split; [exact exampleDb_keys_unique |].
  exact (proj2 (proj2 (proj2 (getUserProgress_latest_first exampleDb "user-1")))
           exampleDb_keys_unique).
Defined.

(** ** Grouping with a [Map] *)

Lemma Map_has_false {V : Type} (key : string) (m : list (string * V)) :
  Map_has key m = false <-> ~ In key (map fst m).
Proof.
  unfold Map_has. split.
  - intros H I. apply in_map_iff in I. destruct I as (e & E & I).
    assert (X : existsb (fun e => String.eqb (fst e) key) m = true).
    { apply existsb_exists. exists e. split; [exact I |]. apply String.eqb_eq. exact E. }
    congruence.
  - intros N. destruct (existsb _ m) eqn:X; [| reflexivity].
    apply existsb_exists in X. destruct X as (e & I & E). decide_num.
    exfalso. apply N. apply in_map_iff. exists e. auto.
Qed.

Lemma Map_has_true {V : Type} (key : string) (m : list (string * V)) :
  Map_has key m = true <-> In key (map fst m).
Proof.
  split.
  - intros H. destruct (in_dec string_dec key (map fst m)) as [I | N]; [exact I |].
    apply Map_has_false in N. congruence.
  - intros I. destruct (Map_has key m) eqn:H; [reflexivity |].
    apply Map_has_false in H. contradiction.
Qed.

Section GroupFacts.
Context {A V : Type} (keyOf : A -> string) (init : V) (bump : A -> V -> V).

Lemma groupStep_new (m : list (string * V)) (a : A) :
  Map_has (keyOf a) m = false ->
  groupStep keyOf init bump m a = m ++ [(keyOf a, bump a init)].
Proof.
  intros H. unfold groupStep. cbv zeta. rewrite H. cbn [negb].
  assert (S : Map_set (keyOf a) init m = m ++ [(keyOf a, init)])
    by (unfold Map_set; rewrite H; reflexivity).
  rewrite S.
  assert (F : find (fun e : string * V => String.eqb (fst e) (keyOf a)) m = None).
  { destruct (find _ m) as [e |] eqn:F; [| reflexivity].
    destruct (find_some _ _ F) as [I E]. decide_num.
    apply Map_has_false in H. exfalso. apply H. apply in_map_iff. exists e. auto. }
  unfold Map_get. rewrite find_app_last, F. cbn [fst]. rewrite String.eqb_refl.
  cbn [option_map snd]. unfold Map_set.
  assert (H' : Map_has (keyOf a) (m ++ [(keyOf a, init)]) = true).
  { apply Map_has_true. rewrite map_app. apply in_or_app. right. left. reflexivity. }
  rewrite H'. rewrite map_app. cbn [map fst]. rewrite String.eqb_refl. f_equal.
  rewrite <- (map_id m) at 2. apply map_ext_in. intros e I.
  destruct (String.eqb (fst e) (keyOf a)) eqn:E; [| reflexivity]. decide_num.
  apply Map_has_false in H. exfalso. apply H. apply in_map_iff. exists e. auto.
Qed.

Lemma groupStep_old (m : list (string * V)) (a : A) :
  NoDup (map fst m) -> Map_has (keyOf a) m = true ->
  groupStep keyOf init bump m a =
  map (fun e => if String.eqb (fst e) (keyOf a) then (fst e, bump a (snd e)) else e) m.
Proof.
  intros N H. unfold groupStep. cbv zeta. rewrite H. cbn [negb].
  unfold Map_get.
  destruct (find (fun e : string * V => String.eqb (fst e) (keyOf a)) m) as [e0 |] eqn:F.
  - destruct (find_some _ _ F) as [I0 E0]. decide_num.
    cbn [option_map]. unfold Map_set. rewrite H. apply map_ext_in. intros e I.
    destruct (String.eqb (fst e) (keyOf a)) eqn:E; [| reflexivity]. decide_num.
    assert (e = e0) as -> by (apply (NoDup_map_eq fst m); congruence).
    rewrite E0. reflexivity.
  - exfalso. apply Map_has_true in H. apply in_map_iff in H.
    destruct H as (e & E & I). pose proof (find_none _ _ F e I) as X.
    cbn in X. rewrite E, String.eqb_refl in X. discriminate.
Qed.

Lemma groupStep_keys (m : list (string * V)) (a : A) :
  NoDup (map fst m) ->
  map fst (groupStep keyOf init bump m a) =
  if Map_has (keyOf a) m then map fst m else map fst m ++ [keyOf a].
Proof.
  intros N. destruct (Map_has (keyOf a) m) eqn:H.
  - rewrite (groupStep_old m a N H), map_map. apply map_ext. intros e.
    destruct (String.eqb (fst e) (keyOf a)); reflexivity.
  - rewrite (groupStep_new m a H), map_app. reflexivity.
Qed.

Lemma group_keys (l : list A) :
  let m := fold_left (groupStep keyOf init bump) l [] in
  NoDup (map fst m) /\ (forall key, In key (map fst m) <-> In key (map keyOf l)).
Proof.
  induction l as [| a l IH] using rev_ind; cbn zeta.
  - cbn. split; [constructor | tauto].
  - rewrite fold_left_app. cbn [fold_left].
    cbv zeta in IH. destruct IH as [N K].
    set (m := fold_left (groupStep keyOf init bump) l []) in *.
    rewrite (groupStep_keys m a N), map_app. cbn [map].
    destruct (Map_has (keyOf a) m) eqn:H.
    + split; [exact N |]. intros key. rewrite in_app_iff, <- K. cbn.
      apply Map_has_true in H. split; [auto | intros [I | [<- | []]]; assumption].
    + split.
      * apply NoDup_snoc; [exact N |]. apply Map_has_false. exact H.
      * intros key. rewrite !in_app_iff, K. reflexivity.
Qed.

Context (weight : V -> Z) (inc : A -> Z).
Hypothesis weight_init : weight init = 0%Z.
Hypothesis weight_bump : forall a v, weight (bump a v) = (weight v + inc a)%Z.

Lemma bumped_sum (m : list (string * V)) (a : A) :
  NoDup (map fst m) -> In (keyOf a) (map fst m) ->
  Zsum (map (fun e => weight (snd e))
          (map (fun e => if String.eqb (fst e) (keyOf a)
                         then (fst e, bump a (snd e)) else e) m)) =
  (Zsum (map (fun e => weight (snd e)) m) + inc a)%Z.
Proof.
  induction m as [| e m IH]; cbn [map Zsum fold_right]; intros N I; [destruct I |].
  inversion N as [| ? ? Ne Nm]; subst.
  destruct (String.eqb (fst e) (keyOf a)) eqn:E; decide_num.
  - cbn [snd]. rewrite weight_bump.
    assert (S : map (fun e0 : string * V =>
                       if String.eqb (fst e0) (keyOf a)
                       then (fst e0, bump a (snd e0)) else e0) m = m).
    { rewrite <- (map_id m) at 2. apply map_ext_in. intros e' I'.
      destruct (String.eqb (fst e') (keyOf a)) eqn:E'; [| reflexivity]. decide_num.
      exfalso. apply Ne. rewrite E, <- E'. apply in_map. exact I'. }
    rewrite S. fold (Zsum (map (fun e0 => weight (snd e0)) m)). lia.
  - destruct I as [I | I]; [congruence |].
    fold (Zsum (map (fun e0 => weight (snd e0)) m)).
    fold (Zsum (map (fun e0 => weight (snd e0))
                  (map (fun e0 : string * V =>
                          if String.eqb (fst e0) (keyOf a)
                          then (fst e0, bump a (snd e0)) else e0) m))).
    rewrite (IH Nm I). lia.
Qed.

Lemma Zsum_app (l1 l2 : list Z) : Zsum (l1 ++ l2) = (Zsum l1 + Zsum l2)%Z.
Proof.
  unfold Zsum. induction l1 as [| x l1 IH]; cbn; [reflexivity | rewrite IH; lia].
Qed.

Lemma ofKey_snoc (key : string) (l : list A) (a : A) :
  ofKey keyOf key (l ++ [a]) =
  ofKey keyOf key l ++ (if String.eqb (keyOf a) key then [a] else []).
Proof.
  unfold ofKey. rewrite filter_app. reflexivity.
Qed.

Lemma group_weights (l : list A) :
  let m := fold_left (groupStep keyOf init bump) l [] in
  Zsum (map (fun e => weight (snd e)) m) = Zsum (map inc l) /\
  (forall key v, In (key, v) m -> weight v = Zsum (map inc (ofKey keyOf key l))).
Proof.
  induction l as [| a l IH] using rev_ind; cbn zeta.
  - cbn. split; [reflexivity | intros key v []].
  - rewrite fold_left_app. cbn [fold_left].
    cbv zeta in IH. destruct IH as [S W].
    destruct (group_keys l) as [N K]. cbv zeta in N, K.
    set (m := fold_left (groupStep keyOf init bump) l []) in *.
    rewrite map_app, Zsum_app. cbn [map]. unfold Zsum at 3. cbn [fold_right].
    destruct (Map_has (keyOf a) m) eqn:H.
    + rewrite (groupStep_old m a N H). split.
      * rewrite bumped_sum by (try exact N; apply Map_has_true; exact H).
        rewrite S. lia.
      * intros key v I. apply in_map_iff in I. destruct I as (e & E & I).
        rewrite ofKey_snoc, map_app, Zsum_app.
        destruct (String.eqb (fst e) (keyOf a)) eqn:X; decide_num.
        -- inversion E; subst key v. rewrite weight_bump.
           rewrite (W (fst e) (snd e)) by (destruct e; exact I).
           rewrite X, String.eqb_refl. cbn. lia.
        -- subst e. rewrite (W key v I).
           replace (String.eqb (keyOf a) key) with false; [cbn; lia |].
           symmetry. apply String.eqb_neq. cbn in X. congruence.
    + rewrite (groupStep_new m a H). split.
      * rewrite map_app, Zsum_app. cbn. rewrite weight_bump, weight_init, S. lia.
      * intros key v I. apply in_app_iff in I.
        rewrite ofKey_snoc, map_app, Zsum_app. destruct I as [I | [E | []]].
        -- rewrite (W key v I).
           replace (String.eqb (keyOf a) key) with false; [cbn; lia |].
           symmetry. apply String.eqb_neq. intros X.
           apply Map_has_false in H. apply H. rewrite X.
           apply in_map_iff. exists (key, v). auto.
        -- inversion E; subst key v. rewrite weight_bump, weight_init.
           rewrite String.eqb_refl.
           assert (O : ofKey keyOf (keyOf a) l = []).
           { unfold ofKey. destruct (filter _ l) as [| b bs] eqn:F; [reflexivity |].
             assert (Ib : In b (filter (fun a0 => String.eqb (keyOf a0) (keyOf a)) l))
               by (rewrite F; left; reflexivity).
             apply filter_In in Ib. destruct Ib as (Ib & Eb). decide_num.
             apply Map_has_false in H. exfalso. apply H. apply K.
             rewrite <- Eb. apply in_map. exact Ib. }
           rewrite O. cbn. lia.
Qed.

End GroupFacts.

(** ** Performance analysis *)

Lemma fold_left_ext {A B : Type} (f g : B -> A -> B) (l : list A) (b : B) :
  (forall x a, f x a = g x a) -> fold_left f l b = fold_left g l b.
Proof.
  intros H. revert b. induction l as [| a l IH]; intros b; cbn; [reflexivity |].
  rewrite H. apply IH.
Qed.

Lemma countTopic_fold (attempts : list AttemptWithQuestion) :
  fold_left countTopic attempts [] =
  fold_left (groupStep attemptTopic (mkTopicData 0 0 []) bumpTopic) attempts [].
Proof.
  apply fold_left_ext. intros m a. reflexivity.
Qed.

Lemma countDay_fold (toISODate : Z -> string) (attempts : list QuestionAttempt) :
  fold_left (countDay toISODate) attempts [] =
  fold_left (groupStep (fun a => toISODate (a_attemptedAt a)) (mkDayData 0 0) bumpDay)
            attempts [].
Proof.
  apply fold_left_ext. intros m a. reflexivity.
Qed.

Lemma Zsum_ones {A : Type} (l : list A) :
  Zsum (map (fun _ => 1%Z) l) = Z.of_nat (List.length l).
Proof.
  unfold Zsum. induction l as [| a l IH]; cbn [map fold_right List.length];
    [reflexivity | rewrite IH; lia].
Qed.

Lemma Zsum_flags {A : Type} (f : A -> bool) (l : list A) :
  Zsum (map (fun a => if f a then 1%Z else 0%Z) l) =
  Z.of_nat (List.length (filter f l)).
Proof.
  unfold Zsum. induction l as [| a l IH]; cbn [map fold_right filter];
    [reflexivity |].
  rewrite IH. destruct (f a); cbn [List.length]; lia.
Qed.

Lemma filter_length_le {A : Type} (f : A -> bool) (l : list A) :
  (List.length (filter f l) <= List.length l)%nat.
Proof.
  induction l as [| a l IH]; cbn; [lia |]. destruct (f a); cbn; lia.
Qed.

Lemma percent_in_range (correct total : Z) :
  (0 <= correct <= total)%Z -> (0 < total)%Z ->
  in_range 0 100 (inject_Z correct / inject_Z total * 100).
Proof.
  intros C T. destruct (accuracy_range correct total C T) as [A0 A1].
  unfold in_range. split; lra.
Qed.

Lemma topicMap_facts (attempts : list AttemptWithQuestion) :
  let m := fold_left countTopic attempts [] in
  NoDup (map fst m) /\
  (forall key, In key (map fst m) <-> In key (map attemptTopic attempts)) /\
  Zsum (map (fun e => td_total (snd e)) m) = Z.of_nat (List.length attempts) /\
  Zsum (map (fun e => td_correct (snd e)) m) =
    Z.of_nat (List.length (filter attemptCorrect attempts)) /\
  (forall key d, In (key, d) m ->
     td_total d = Z.of_nat (List.length (ofKey attemptTopic key attempts)) /\
     td_correct d =
       Z.of_nat (List.length (filter attemptCorrect (ofKey attemptTopic key attempts))) /\
     (1 <= td_total d)%Z).
Proof.
  cbv zeta. rewrite countTopic_fold.
  destruct (group_keys attemptTopic (mkTopicData 0 0 []) bumpTopic attempts) as [N K].
  destruct (group_weights attemptTopic (mkTopicData 0 0 []) bumpTopic
              td_total (fun _ => 1%Z) eq_refl (fun a v => eq_refl) attempts) as [ST WT].
  destruct (group_weights attemptTopic (mkTopicData 0 0 []) bumpTopic
              td_correct (fun a => if attemptCorrect a then 1%Z else 0%Z) eq_refl
              (fun a v => ltac:(unfold bumpTopic, attemptCorrect; cbn;
                                destruct (a_isCorrect (aq_attempt a)); lia))
              attempts) as [SC WC].
  cbv zeta in N, K, ST, WT, SC, WC.
  set (m := fold_left (groupStep attemptTopic (mkTopicData 0 0 []) bumpTopic) attempts [])
    in *.
  split; [exact N |]. split; [exact K |].
  split; [rewrite ST; apply Zsum_ones |].
  split; [rewrite SC; apply Zsum_flags |].
  intros key d I.
  rewrite (WT key d I), (WC key d I), Zsum_ones, Zsum_flags.
  split; [reflexivity |]. split; [reflexivity |].
  assert (Ik : In key (map attemptTopic attempts)).
  { apply K. apply in_map_iff. exists (key, d). auto. }
  apply in_map_iff in Ik. destruct Ik as (a & E & Ia).
  assert (Io : In a (ofKey attemptTopic key attempts)).
  { unfold ofKey. apply filter_In. split; [exact Ia |]. apply String.eqb_eq. exact E. }
  destruct (ofKey attemptTopic key attempts); [destruct Io | cbn [List.length]; lia].
Qed.

Lemma breakdown_of (db : Db) (toISODate : Z -> string) (sevenDaysAgo : Z)
    (attempts : list AttemptWithQuestion) (userId : option string) :
  attempts <> [] ->
  let r := getPerformanceAnalysis db toISODate sevenDaysAgo attempts userId in
  map tp_topic (pa_topicBreakdown r) = map fst (fold_left countTopic attempts []) /\
  map tp_totalAttempts (pa_topicBreakdown r) =
    map (fun e => td_total (snd e)) (fold_left countTopic attempts []) /\
  map tp_correctAttempts (pa_topicBreakdown r) =
    map (fun e => td_correct (snd e)) (fold_left countTopic attempts []) /\
  (forall t, In t (pa_topicBreakdown r) ->
     exists d, In (tp_topic t, d) (fold_left countTopic attempts []) /\
               tp_totalAttempts t = td_total d /\
               tp_correctAttempts t = td_correct d /\
               tp_accuracy t = inject_Z (td_correct d) / inject_Z (td_total d) * 100) /\
  pa_totalAttempts r = Z.of_nat (List.length attempts) /\
  pa_correctAttempts r = Z.of_nat (List.length (filter attemptCorrect attempts)) /\
  pa_overallAccuracy r =
    inject_Z (Z.of_nat (List.length (filter attemptCorrect attempts)))
    / inject_Z (Z.of_nat (List.length attempts)) * 100 /\
  pa_weakAreas r =
    map tp_topic (filter (fun t => Qlt_bool (tp_accuracy t) 70) (pa_topicBreakdown r)) /\
  pa_recommendations r =
    generateRecommendations (pa_topicBreakdown r) (pa_overallAccuracy r).
Proof.
  intros N. unfold getPerformanceAnalysis.
  destruct (Z.of_nat (List.length attempts) =? 0)%Z eqn:E; decide_num.
  - destruct attempts; [contradiction | cbn in E; lia].
  - cbv zeta. cbn [pa_topicBreakdown pa_totalAttempts pa_correctAttempts
                   pa_overallAccuracy pa_weakAreas pa_recommendations].
    repeat split.
    + rewrite map_map. apply map_ext. intros [k d]. reflexivity.
    + rewrite map_map. apply map_ext. intros [k d]. reflexivity.
    + rewrite map_map. apply map_ext. intros [k d]. reflexivity.
    + intros t I. apply in_map_iff in I. destruct I as ([k d] & <- & I).
      exists d. cbn. auto.
Qed.

(** X15: the analysis accounts for every attempt it is given: it reports
    their number and the number of correct ones, an overall accuracy in
    [0,100], and one breakdown entry for each topic that was attempted and
    none else; an entry holds the number of attempts of its topic (at
    least 1), the number of correct ones and an accuracy in [0,100]; and
    the entries' attempts add up to the total, their correct attempts to
    the total of correct ones. *)
Theorem performance_analysis_accounts (db : Db) (toISODate : Z -> string)
    (sevenDaysAgo : Z) (attempts : list AttemptWithQuestion)
    (userId : option string) :
  let r := getPerformanceAnalysis db toISODate sevenDaysAgo attempts userId in
  pa_totalAttempts r = Z.of_nat (List.length attempts) /\
  pa_correctAttempts r = Z.of_nat (List.length (filter attemptCorrect attempts)) /\
  in_range 0 100 (pa_overallAccuracy r) /\
  NoDup (map tp_topic (pa_topicBreakdown r)) /\
  (forall tp, In tp (map tp_topic (pa_topicBreakdown r)) <->
              exists a, In a attempts /\ attemptTopic a = tp) /\
  (forall t, In t (pa_topicBreakdown r) ->
     tp_totalAttempts t =
       Z.of_nat (List.length (ofKey attemptTopic (tp_topic t) attempts)) /\
     tp_correctAttempts t =
       Z.of_nat (List.length
                   (filter attemptCorrect (ofKey attemptTopic (tp_topic t) attempts))) /\
     (1 <= tp_totalAttempts t)%Z /\
     in_range 0 100 (tp_accuracy t)) /\
  Zsum (map tp_totalAttempts (pa_topicBreakdown r)) = pa_totalAttempts r /\
  Zsum (map tp_correctAttempts (pa_topicBreakdown r)) = pa_correctAttempts r.
Proof.
  intros r.
  assert (D : attempts = [] \/ attempts <> [])
    by (destruct attempts; [left; reflexivity | right; discriminate]).
  destruct D as [-> | N].
  - unfold r. cbn.
    split; [reflexivity |]. split; [reflexivity |].
    split; [split; vm_compute; discriminate |].
    split; [constructor |].
    split; [intros tp; split; [intros [] | intros (a & [] & _)] |].
    split; [intros t [] |].
    split; reflexivity.
  - assert (L : (0 < Z.of_nat (List.length attempts))%Z)
      by (destruct attempts; [contradiction | cbn [List.length]; lia]).
    destruct (breakdown_of db toISODate sevenDaysAgo attempts userId N)
      as (BT & BN & BC & BE & PT & PC & PA & _).
    fold r in BT, BN, BC, BE, PT, PC, PA.
    destruct (topicMap_facts attempts) as (MN & MK & MT & MC & ME).
    cbv zeta in MN, MK, MT, MC, ME.
    split; [exact PT |]. split; [exact PC |]. split.
    { rewrite PA. apply percent_in_range.
      - split; [lia |]. apply inj_le. apply filter_length_le.
      - exact L. }
    split; [rewrite BT; exact MN |]. split.
    { intros tp. rewrite BT, MK, in_map_iff.
      split; intros (a & X & Y); exists a; split; assumption. }
    split.
    { intros t I. destruct (BE t I) as (d & Id & T & C & A).
      destruct (ME (tp_topic t) d Id) as (ET & EC & E1).
      rewrite T, C, A. split; [exact ET |]. split; [exact EC |]. split; [exact E1 |].
      apply percent_in_range; [| lia].
      rewrite ET, EC. split; [lia |]. apply inj_le. apply filter_length_le. }
    split.
    { rewrite BN, MT, PT. reflexivity. }
    rewrite BC, MC, PC. reflexivity.
Qed.

Lemma generateRecommendations_lines_aux (topicBreakdown : list TopicPerformance)
    (overallAccuracy : Q) :
  let r := generateRecommendations topicBreakdown overallAccuracy in
  let weak := filter (fun t => Qlt_bool (tp_accuracy t) 70) topicBreakdown in
  let slow := filter (fun t => Qlt_bool 10000 (tp_averageResponseTime t)) topicBreakdown in
  (1 <= List.length r <= 3)%nat /\
  (List.length r = 1%nat <-> weak = [] /\ slow = []) /\
  (weak <> [] ->
     nth 1 r ""%string =
       ("Focus on improving: " ++ String.concat ", " (map tp_topic weak))%string) /\
  (slow <> [] ->
     last r ""%string =
       ("Work on speed for: " ++ String.concat ", " (map tp_topic slow))%string) /\
  (overallAccuracy < 60 ->
     hd ""%string r =
       "Focus on reviewing fundamental concepts before attempting more questions"%string) /\
  (60 <= overallAccuracy -> overallAccuracy < 80 ->
     hd ""%string r = "Good progress! Continue practicing to improve accuracy"%string) /\
  (80 <= overallAccuracy ->
     hd ""%string r =
       "Excellent performance! Consider tackling more challenging topics"%string).
Proof.
  intros r weak slow. unfold r, generateRecommendations. cbv zeta.
  fold weak. fold slow.
  set (first := if Qlt_bool overallAccuracy 60 then _ else _).
  assert (F : exists line, first = [line] /\
              (overallAccuracy < 60 -> line =
                 "Focus on reviewing fundamental concepts before attempting more questions"%string) /\
              (60 <= overallAccuracy -> overallAccuracy < 80 -> line =
                 "Good progress! Continue practicing to improve accuracy"%string) /\
              (80 <= overallAccuracy -> line =
                 "Excellent performance! Consider tackling more challenging topics"%string)).
  { unfold first.
    destruct (Qlt_bool overallAccuracy 60) eqn:A;
      [| destruct (Qlt_bool overallAccuracy 80) eqn:B]; decide_num;
      eexists; (split; [reflexivity |]); repeat split; intros;
      try reflexivity; exfalso; lra. }
  destruct F as (line & -> & F1 & F2 & F3).
  destruct weak as [| w ws]; destruct slow as [| s ss]; cbn -[String.concat String.append];
    (split; [lia |]); (split; [split; [intros H; try discriminate H; auto
                                      | intros [H1 H2]; try discriminate; reflexivity] |]);
    (split; [intros H; try (exfalso; apply H; reflexivity); reflexivity |]);
    (split; [intros H; try (exfalso; apply H; reflexivity); reflexivity |]);
    auto.
Qed.

(** X14: [generateRecommendations] gives between one and three lines: the
    first one is chosen by the overall accuracy (below 60, below 80, from
    80); a second one names the topics with an accuracy below 70 when there
    are any; a further one names the topics with an average response time
    above 10000 ms when there are any; so there is exactly one line when no
    topic is weak or slow. *)
Theorem generateRecommendations_lines (topicBreakdown : list TopicPerformance)
    (overallAccuracy : Q) :
  let r := generateRecommendations topicBreakdown overallAccuracy in
  let weak := filter (fun t => Qlt_bool (tp_accuracy t) 70) topicBreakdown in
  let slow := filter (fun t => Qlt_bool 10000 (tp_averageResponseTime t)) topicBreakdown in
  (1 <= List.length r <= 3)%nat /\
  (List.length r = 1%nat <-> weak = [] /\ slow = []) /\
  (weak <> [] ->
     nth 1 r ""%string =
       ("Focus on improving: " ++ String.concat ", " (map tp_topic weak))%string) /\
  (slow <> [] ->
     last r ""%string =
       ("Work on speed for: " ++ String.concat ", " (map tp_topic slow))%string) /\
  (overallAccuracy < 60 ->
     hd ""%string r =
       "Focus on reviewing fundamental concepts before attempting more questions"%string) /\
  (60 <= overallAccuracy -> overallAccuracy < 80 ->
     hd ""%string r = "Good progress! Continue practicing to improve accuracy"%string) /\
  (80 <= overallAccuracy ->
     hd ""%string r =
       "Excellent performance! Consider tackling more challenging topics"%string).
Proof.
  apply generateRecommendations_lines_aux.
Qed.

Lemma percent_ge_70 (correct total : Z) :
  (0 < total)%Z ->
  70 <= inject_Z correct / inject_Z total * 100 <-> (70 * total <= 100 * correct)%Z.
Proof.
  intros T.
  assert (T' : 0 < inject_Z total)
    by (change 0 with (inject_Z 0); rewrite <- Zlt_Qlt; exact T).
  assert (E : inject_Z correct / inject_Z total * inject_Z total == inject_Z correct).
  { field. lra. }
  set (a := inject_Z correct / inject_Z total) in *.
  rewrite Zle_Qle, !inject_Z_mult.
  change (inject_Z 70) with 70. change (inject_Z 100) with 100.
  rewrite <- E. clearbody a. split; intros H; nra.
Qed.

Lemma weighted_sum_ge (l : list (Z * Z)) :
  Forall (fun e => (70 * snd e <= 100 * fst e)%Z) l ->
  (70 * Zsum (map snd l) <= 100 * Zsum (map fst l))%Z.
Proof.
  unfold Zsum. induction 1 as [| e l H _ IH]; cbn [map fold_right]; lia.
Qed.

(** X16: when attempts exist and the overall accuracy is below 70, some
    topic has an accuracy below 70: the list of weak areas is not empty, it
    holds topics of the breakdown only, and the second recommendation is the
    line that names exactly the weak areas. *)
Theorem low_accuracy_names_weak_areas (db : Db) (toISODate : Z -> string)
    (sevenDaysAgo : Z) (attempts : list AttemptWithQuestion)
    (userId : option string) :
  attempts <> [] ->
  let r := getPerformanceAnalysis db toISODate sevenDaysAgo attempts userId in
  pa_overallAccuracy r < 70 ->
  pa_weakAreas r <> [] /\
  (forall tp, In tp (pa_weakAreas r) -> In tp (map tp_topic (pa_topicBreakdown r))) /\
  nth 1 (pa_recommendations r) ""%string =
    ("Focus on improving: " ++ String.concat ", " (pa_weakAreas r))%string.
Proof.
  intros N r Low.
  destruct (breakdown_of db toISODate sevenDaysAgo attempts userId N)
    as (BT & BN & BC & BE & PT & PC & PA & PW & PR).
  fold r in BT, BN, BC, BE, PT, PC, PA, PW, PR.
  destruct (topicMap_facts attempts) as (MN & MK & MT & MC & ME).
  cbv zeta in MN, MK, MT, MC, ME.
  assert (L : (0 < Z.of_nat (List.length attempts))%Z)
    by (destruct attempts; [contradiction | cbn [List.length]; lia]).
  assert (W : filter (fun t => Qlt_bool (tp_accuracy t) 70) (pa_topicBreakdown r) <> []).
  { intros E.
    assert (A : Forall (fun t => (70 * tp_totalAttempts t <= 100 * tp_correctAttempts t)%Z)
                       (pa_topicBreakdown r)).
    { apply Forall_forall. intros t I.
      destruct (BE t I) as (d & Id & T & C & A).
      destruct (ME (tp_topic t) d Id) as (_ & _ & E1).
      rewrite T, C. apply percent_ge_70; [lia |]. rewrite <- A.
      destruct (Qlt_bool (tp_accuracy t) 70) eqn:X; decide_num; [| exact X].
      exfalso.
      assert (In t (filter (fun t => Qlt_bool (tp_accuracy t) 70) (pa_topicBreakdown r))).
      { apply filter_In. split; [exact I |]. apply Qlt_bool_iff. exact X. }
      rewrite E in H. destruct H. }
    assert (S : (70 * Zsum (map tp_totalAttempts (pa_topicBreakdown r))
                 <= 100 * Zsum (map tp_correctAttempts (pa_topicBreakdown r)))%Z).
    { pose proof (weighted_sum_ge
                    (map (fun t => (tp_correctAttempts t, tp_totalAttempts t))
                         (pa_topicBreakdown r))) as G.
      rewrite !map_map in G. cbn [fst snd] in G. apply G.
      apply Forall_map. exact A. }
    rewrite BN, BC, MT, MC in S.
    apply (percent_ge_70 _ _ L) in S. rewrite <- PA in S. lra. }
  split; [| split].
  - rewrite PW. intros E. apply W. destruct (filter _ (pa_topicBreakdown r));
      [reflexivity | discriminate E].
  - intros tp I. rewrite PW in I. apply in_map_iff in I. destruct I as (t & <- & I).
    apply filter_In in I. apply in_map. apply I.
  - rewrite PR, PW.
    exact (proj1 (proj2 (proj2
             (generateRecommendations_lines_aux (pa_topicBreakdown r)
                (pa_overallAccuracy r)))) W).
Qed.

(** the theorem above for one correct and one wrong JavaScript answer *)
Lemma low_accuracy_names_weak_areas_witness :
  (exampleAttempts <> [] /\
   pa_overallAccuracy
     (getPerformanceAnalysis exampleDb (fun _ => "2023-11-14"%string)
        (exampleNow - 7 * 86400000) exampleAttempts (Some "user-1"%string)) < 70) /\
  pa_weakAreas
    (getPerformanceAnalysis exampleDb (fun _ => "2023-11-14"%string)
       (exampleNow - 7 * 86400000) exampleAttempts (Some "user-1"%string)) <> [].
Proof.
  assert (N : exampleAttempts <> []) by discriminate.
  assert (L : pa_overallAccuracy
                (getPerformanceAnalysis exampleDb (fun _ => "2023-11-14"%string)
                   (exampleNow - 7 * 86400000) exampleAttempts
                   (Some "user-1"%string)) < 70)
    by (vm_compute; reflexivity).
  split; [split; assumption |].
  exact (proj1 (low_accuracy_names_weak_areas exampleDb (fun _ => "2023-11-14"%string)
                  (exampleNow - 7 * 86400000) exampleAttempts
                  (Some "user-1"%string) N L)).
Defined.

Lemma Permutation_filter {A : Type} (f : A -> bool) (l l' : list A) :
  Permutation l l' -> Permutation (filter f l) (filter f l').
Proof.
  induction 1 as [| x l l' _ IH | x y l | l l' l'' _ IH1 _ IH2]; cbn.
  - constructor.
  - destruct (f x); [constructor |]; exact IH.
  - destruct (f x); destruct (f y); try apply Permutation_refl. apply perm_swap.
  - exact (perm_trans IH1 IH2).
Qed.

Lemma dailyData_facts (toISODate : Z -> string) (attempts : list QuestionAttempt) :
  let m := fold_left (countDay toISODate) attempts [] in
  NoDup (map fst m) /\
  (forall key, In key (map fst m) <-> In key (map (attemptDate toISODate) attempts)) /\
  Zsum (map (fun e => dd_total (snd e)) m) = Z.of_nat (List.length attempts) /\
  (forall key d, In (key, d) m ->
     dd_total d = Z.of_nat (List.length (ofKey (attemptDate toISODate) key attempts)) /\
     dd_correct d =
       Z.of_nat (List.length
                   (filter a_isCorrect (ofKey (attemptDate toISODate) key attempts))) /\
     (1 <= dd_total d)%Z).
Proof.
  cbv zeta. rewrite countDay_fold.
  change (fun a : QuestionAttempt => toISODate (a_attemptedAt a))
    with (attemptDate toISODate).
  destruct (group_keys (attemptDate toISODate) (mkDayData 0 0) bumpDay attempts) as [N K].
  destruct (group_weights (attemptDate toISODate) (mkDayData 0 0) bumpDay
              dd_total (fun _ => 1%Z) eq_refl (fun a v => eq_refl) attempts) as [ST WT].
  destruct (group_weights (attemptDate toISODate) (mkDayData 0 0) bumpDay
              dd_correct (fun a => if a_isCorrect a then 1%Z else 0%Z) eq_refl
              (fun a v => ltac:(unfold bumpDay; cbn; destruct (a_isCorrect a); lia))
              attempts) as [SC WC].
  cbv zeta in N, K, ST, WT, SC, WC.
  set (m := fold_left (groupStep (attemptDate toISODate) (mkDayData 0 0) bumpDay)
              attempts []) in *.
  split; [exact N |]. split; [exact K |].
  split; [rewrite ST; apply Zsum_ones |].
  intros key d I.
  rewrite (WT key d I), (WC key d I), Zsum_ones, Zsum_flags.
  split; [reflexivity |]. split; [reflexivity |].
  assert (Ik : In key (map (attemptDate toISODate) attempts)).
  { apply K. apply in_map_iff. exists (key, d). auto. }
  apply in_map_iff in Ik. destruct Ik as (a & E & Ia).
  assert (Io : In a (ofKey (attemptDate toISODate) key attempts)).
  { unfold ofKey. apply filter_In. split; [exact Ia |]. apply String.eqb_eq. exact E. }
  destruct (ofKey (attemptDate toISODate) key attempts);
    [destruct Io | cbn [List.length]; lia].
Qed.

(** X17: [calculateImprovementTrends] counts every attempt it selects (by
    the user id, not older than seven days) once: it returns one entry per
    date on which such an attempt was made and none else; an entry holds
    the number of the attempts of its date, at least 1, and their accuracy
    in percent, a value in [0,100]; the entries' attempts add up to the
    number of selected attempts; and an empty user id selects the same
    attempts as an absent one. *)
Theorem improvement_trends_account (db : Db) (toISODate : Z -> string)
    (sevenDaysAgo : Z) (userId : option string) :
  let trends := calculateImprovementTrends db toISODate sevenDaysAgo userId in
  let recent := recentAttemptsOf db sevenDaysAgo userId in
  NoDup (map t_date trends) /\
  (forall date, In date (map t_date trends) <->
                exists a, In a recent /\ toISODate (a_attemptedAt a) = date) /\
  (forall t, In t trends ->
     t_totalAttempts t =
       Z.of_nat (List.length (ofKey (attemptDate toISODate) (t_date t) recent)) /\
     (1 <= t_totalAttempts t)%Z /\
     t_accuracy t =
       inject_Z (Z.of_nat (List.length
                   (filter a_isCorrect (ofKey (attemptDate toISODate) (t_date t) recent))))
       / inject_Z (t_totalAttempts t) * 100 /\
     in_range 0 100 (t_accuracy t)) /\
  Zsum (map t_totalAttempts trends) = Z.of_nat (List.length recent) /\
  calculateImprovementTrends db toISODate sevenDaysAgo (Some ""%string) =
    calculateImprovementTrends db toISODate sevenDaysAgo None.
Proof.
  intros trends recent. unfold trends, calculateImprovementTrends. cbv zeta.
  fold (recentAttemptsOf db sevenDaysAgo userId). fold recent.
  pose proof (Array_sort_perm
                (fun a b => inject_Z (a_attemptedAt a) - inject_Z (a_attemptedAt b))
                recent) as P.
  set (sorted := Array_sort _ recent) in *.
  destruct (dailyData_facts toISODate sorted) as (N & K & S & E).
  cbv zeta in N, K, S, E.
  set (m := fold_left (countDay toISODate) sorted []) in *.
  assert (C : forall key f,
            List.length (filter f (ofKey (attemptDate toISODate) key sorted)) =
            List.length (filter f (ofKey (attemptDate toISODate) key recent))).
  { intros key f. apply Permutation_length. apply Permutation_filter.
    unfold ofKey. apply Permutation_filter. exact P. }
  assert (C' : forall key,
            List.length (ofKey (attemptDate toISODate) key sorted) =
            List.length (ofKey (attemptDate toISODate) key recent)).
  { intros key. apply Permutation_length. unfold ofKey.
    apply Permutation_filter. exact P. }
  assert (D : map t_date
                (map (fun entry : string * DayData =>
                        let '(date, data) := entry in
                        mkTrendData date
                          (if (0 <? dd_total data)%Z
                           then inject_Z (dd_correct data) / inject_Z (dd_total data) * 100
                           else 0)
                          (dd_total data)) m) = map fst m).
  { rewrite map_map. apply map_ext. intros [k d]. reflexivity. }
  split; [rewrite D; exact N |]. split; [| split; [| split]].
  - intros date. rewrite D, K, in_map_iff. unfold attemptDate.
    split; intros (a & X & Y).
    + exists a. split; [apply (Permutation_in _ P); exact Y | exact X].
    + exists a. split; [exact Y | apply (Permutation_in _ (Permutation_sym P)); exact X].
  - intros t I. apply in_map_iff in I. destruct I as ([k d] & <- & I).
    cbn [t_date t_totalAttempts t_accuracy].
    destruct (E k d I) as (ET & EC & E1).
    replace (0 <? dd_total d)%Z with true by (symmetry; apply Z.ltb_lt; lia).
    rewrite <- C', <- C, <- ET, <- EC.
    split; [reflexivity |]. split; [exact E1 |]. split; [reflexivity |].
    apply percent_in_range; [| lia].
    rewrite ET, EC. split; [lia |]. apply inj_le. apply filter_length_le.
  - rewrite map_map.
    replace (map _ m) with (map (fun e : string * DayData => dd_total (snd e)) m)
      by (apply map_ext; intros [k d]; reflexivity).
    rewrite S. f_equal. apply Permutation_length. exact P.
  - reflexivity.
Qed.
